(** * Signal Overlay Engine (signal-overlay-engine.ts): shallow embedding

    The engine keeps a bounded buffer of ticks, analyses the last digits of the
    most recent 50 quotes every 5 seconds and, when one half of the digit range
    dominates, publishes a 120 second signal with a 1 second countdown.

    Modelling choices
    - A JavaScript [number] is an IEEE-754 binary64 value: [spec_float] with
      precision 53 and maximal exponent 1024, with the library's correctly
      rounded [SFmul], [SFdiv], [SFadd].  Quotes, digits, percentages and
      confidence scores are such numbers.
    - [Date.now()] is an integer count of milliseconds; timestamps and the
      second counter derived from them are [Z].  All of them stay far below
      2^53, where double arithmetic on integers is exact and
      [Math.floor (a / 1000)] is the floor division [a / 1000] of [Z].
    - The two counters of the analysis loop are integers below 2^53: [Z].
    - The engine's private fields form the record [Engine]; the browser side
      (interval timers, the armed reconnection timeouts, upstream
      subscriptions, the calls received by the two UI callbacks) forms the
      record [World].  Every method is a function on [State], the pair of
      both.  A method reads the clock through extra arguments.
    - [initialize] and [connectToDerivAPI] are asynchronous in the source;
      here each runs in one step, with the answer of the Deriv API as an
      argument; console output is not modelled.  A call that overlaps a
      pending connection attempt (a destroy or a second initialize before
      the subscription is answered) is therefore not a run of this model.
      Only the field [unsubscribe] is written after the await; the timers,
      the Signal slot, the id set, the Buffer and [isInitialized] are
      written in synchronous blocks only.
    - The polling loop of [waitForAPI] is a function of the list of its
      checks, each with the clock reading and the state of [api_base] it
      finds; the result is [Pending] when the list ends before the promise
      settles.
    - Of the component SignalOverlay.tsx, the two updaters of its list of
      available signals and [formatRemainingTime] are functions on
      [list SignalData] and on a whole number of seconds. *)

From Stdlib Require Import ZArith Lia Bool.
From Stdlib Require Import Floats.SpecFloat.
From Stdlib Require Import Ascii.
From stdpp Require Import base option list gmap strings pretty.

Local Open Scope Z_scope.

(** ** JavaScript numbers *)

Module Js.

Definition number := spec_float.

Definition prec : Z := 53.
Definition emax : Z := 1024.

(** The double nearest to an integer (exact below 2^53). *)
Definition ofZ (z : Z) : number := binary_normalize prec emax z 0 false.

Definition mul : number -> number -> number := SFmul prec emax.
Definition div : number -> number -> number := SFdiv prec emax.
Definition add : number -> number -> number := SFadd prec emax.

(** [x > y], [x >= y], [x < y]: false as soon as one side is NaN. *)
Definition gtb (x y : number) : bool := SFltb y x.
Definition geb (x y : number) : bool := SFleb y x.
Definition ltb (x y : number) : bool := SFltb x y.

Definition isNaN (x : number) : bool :=
  match x with S754_nan => true | _ => false end.

(** [Number.isFinite]. *)
Definition isFinite (x : number) : bool :=
  match x with
  | S754_zero _ | S754_finite _ _ _ => true
  | S754_infinity _ | S754_nan => false
  end.

(** ToBoolean on a number: [0], [-0] and [NaN] are falsy. *)
Definition truthy (x : number) : bool :=
  match x with
  | S754_zero _ | S754_nan => false
  | S754_infinity _ | S754_finite _ _ _ => true
  end.

(** The integer [floor (+-m * 2^e)]. *)
Definition floorZ (s : bool) (m : positive) (e : Z) : Z :=
  let v := cond_Zopp s (Zpos m) in
  match e with
  | Z0 => v
  | Zpos _ => v * 2 ^ e
  | Zneg k => v / 2 ^ Zpos k
  end.

(** [Math.floor]: zeros, infinities and NaN are returned unchanged. *)
Definition Math_floor (x : number) : number :=
  match x with
  | S754_finite s m e =>
      match floorZ s m e with
      | Z0 => S754_zero s
      | z => ofZ z
      end
  | _ => x
  end.

Definition Math_abs : number -> number := SFabs.

(** [Math.round]: [floor (x + 1/2)] computed exactly; a zero result keeps
    the sign of [x]. *)
Definition Math_round (x : number) : number :=
  match x with
  | S754_finite s m e =>
      match e with
      | Zneg k =>
          match (2 * cond_Zopp s (Zpos m) + 2 ^ Zpos k) / 2 ^ (Zpos k + 1) with
          | Z0 => S754_zero s
          | z => ofZ z
          end
      | _ => x
      end
  | _ => x
  end.

(** [Math.min] of two arguments: NaN if either is NaN, and [-0 < +0]. *)
Definition Math_min (x y : number) : number :=
  match x, y with
  | S754_nan, _ | _, S754_nan => S754_nan
  | S754_zero sx, S754_zero sy => S754_zero (sx || sy)
  | _, _ => if SFltb y x then y else x
  end.

(** The remainder operator [x % y]: exact, truncated, with the sign of the
    dividend; NaN for an infinite dividend or a zero divisor. *)
Definition rem (x y : number) : number :=
  match x, y with
  | S754_nan, _ | _, S754_nan => S754_nan
  | S754_infinity _, _ | _, S754_zero _ => S754_nan
  | S754_zero _, _ => x
  | S754_finite _ _ _, S754_infinity _ => x
  | S754_finite sx mx ex, S754_finite _ my ey =>
      let e := Z.min ex ey in
      let X := Zpos mx * 2 ^ (ex - e) in
      let Y := Zpos my * 2 ^ (ey - e) in
      binary_normalize prec emax (cond_Zopp sx (X mod Y)) e sx
  end.

End Js.

Import Js.

(** ** types.ts *)

Inductive Bias := OVER | UNDER | NEUTRAL.

#[global] Instance Bias_eq_dec : EqDecision Bias.
Proof. solve_decision. Defined.

(** [SignalType = 'OVER' | 'UNDER']; the engine fills it with
    [analysis.bias as SignalType], an unchecked cast, so it ranges over the
    same three tags at run time. *)
Definition SignalType := Bias.

Inductive TradeOutcome := none | win | loss.

#[global] Instance TradeOutcome_eq_dec : EqDecision TradeOutcome.
Proof. solve_decision. Defined.

Record NumericSignalConfig := {
  prediction1 : number;
  prediction2 : number;
  takeProfit : number;
  stopLoss : number;
}.

Record TickData := {
  quote : number;
  epoch : number;
}.

Record DistributionAnalysis := {
  recentTicks : list number;
  overCount : Z;
  underCount : Z;
  overPercentage : number;
  underPercentage : number;
  bias : Bias;
  confidenceScore : number;
}.

Record SignalData := {
  id : string;
  type : SignalType;
  market : string;
  confidence : number;
  createdAt : Z;
  expiresAt : Z;
  remainingSeconds : Z;
  distributionAnalysis : DistributionAnalysis;
}.

(** ** Constants of the engine *)

Definition SIGNAL_DURATION : Z := 120.
Definition MIN_TICKS_FOR_ANALYSIS : nat := 50.
Definition CONFIDENCE_THRESHOLD : number := ofZ 65.
Definition TICK_BUFFER_SIZE : nat := 100.
Definition SIGNAL_CHECK_INTERVAL : Z := 5000.
Definition MARKET : string := "R_50".

(** ** analyzeDistribution *)

(** [Array.prototype.slice(-n)]: the last [n] elements, or the whole array
    when it is shorter. *)
Definition slice_last {A} (n : nat) (l : list A) : list A :=
  drop (length l - n)%nat l.

(** [Math.abs(Math.floor(price * 100)) % 10]. *)
Definition lastDigit (price : number) : number :=
  rem (Math_abs (Math_floor (mul price (ofZ 100)))) (ofZ 10).

(** One round of the [forEach] loop over the digits: [digit >= 5] counts as
    OVER, everything else (NaN included) as UNDER. *)
Definition countDigit (acc : Z * Z) (digit : number) : Z * Z :=
  if geb digit (ofZ 5) then (fst acc + 1, snd acc) else (fst acc, snd acc + 1).

Definition countDigits (lastDigits : list number) : Z * Z :=
  fold_left countDigit lastDigits (0, 0).

(** The bias block: starts from [NEUTRAL] with score 50 and overrides both
    when one percentage exceeds 60. *)
Definition determineBias (overPercentage underPercentage : number)
  : Bias * number :=
  if gtb overPercentage (ofZ 60) then
    (UNDER, Math_min (ofZ 95) (add overPercentage (ofZ 5)))
  else if gtb underPercentage (ofZ 60) then
    (OVER, Math_min (ofZ 95) (add underPercentage (ofZ 5)))
  else
    (NEUTRAL, ofZ 50).

Definition analyzeDistribution (tickBuffer : list TickData)
  : DistributionAnalysis :=
  let recent := slice_last MIN_TICKS_FOR_ANALYSIS tickBuffer in
  let lastDigits := map (fun tick => lastDigit (quote tick)) recent in
  let counts := countDigits lastDigits in
  let total := Z.of_nat (length lastDigits) in
  let overPct := mul (div (ofZ (fst counts)) (ofZ total)) (ofZ 100) in
  let underPct := mul (div (ofZ (snd counts)) (ofZ total)) (ofZ 100) in
  let decision := determineBias overPct underPct in
  {| recentTicks := lastDigits;
     overCount := fst counts;
     underCount := snd counts;
     overPercentage := overPct;
     underPercentage := underPct;
     bias := fst decision;
     confidenceScore := snd decision |}.

(** ** The browser side *)

Inductive TimerKind :=
  | SignalGenerationTimer   (* the callback installed by startSignalGeneration *)
  | CountdownTimer.         (* the callback installed by startCountdown *)

#[global] Instance TimerKind_eq_dec : EqDecision TimerKind.
Proof. solve_decision. Defined.

Record World := {
  timers : gmap nat TimerKind;          (* live setInterval handles *)
  nextTimer : nat;                      (* the next handle setInterval returns *)
  subscriptions : gset string;          (* live upstream tick subscriptions *)
  signalUpdates : list (option SignalData);  (* calls of onSignalUpdate, oldest first *)
  outcomeChanges : list TradeOutcome;   (* calls of onOutcomeChange, oldest first *)
  pendingRetries : nat;                 (* armed 5 second reconnection timeouts *)
}.

(** ** The engine's fields *)

Record Engine := {
  config : option NumericSignalConfig;
  onSignalUpdate : bool;                (* false: null; true: the UI's callback *)
  onOutcomeChange : bool;
  currentSignal : option SignalData;
  tickBuffer : list TickData;
  unsubscribe : option string;          (* the closure over subscriptionId *)
  countdownInterval : option nat;
  signalGenerationInterval : option nat;
  isInitialized : bool;
  activeSignalIds : gset string;
  currentOutcome : TradeOutcome;
}.

Record State := { eng : Engine; world : World }.

Definition initWorld : World :=
  {| timers := ∅; nextTimer := 1%nat; subscriptions := ∅;
     signalUpdates := []; outcomeChanges := []; pendingRetries := 0%nat |}.

Definition initEngine : Engine :=
  {| config := None; onSignalUpdate := false; onOutcomeChange := false;
     currentSignal := None; tickBuffer := []; unsubscribe := None;
     countdownInterval := None; signalGenerationInterval := None;
     isInitialized := false; activeSignalIds := ∅; currentOutcome := none |}.

Definition initState : State := {| eng := initEngine; world := initWorld |}.

(** Field assignments [this.f = v]. *)
Section Assign.
Variable e : Engine.

Definition set_config v : Engine :=
  {| config := v; onSignalUpdate := onSignalUpdate e;
     onOutcomeChange := onOutcomeChange e; currentSignal := currentSignal e;
     tickBuffer := tickBuffer e; unsubscribe := unsubscribe e;
     countdownInterval := countdownInterval e;
     signalGenerationInterval := signalGenerationInterval e;
     isInitialized := isInitialized e; activeSignalIds := activeSignalIds e;
     currentOutcome := currentOutcome e |}.

Definition set_callbacks u o : Engine :=
  {| config := config e; onSignalUpdate := u; onOutcomeChange := o;
     currentSignal := currentSignal e;
     tickBuffer := tickBuffer e; unsubscribe := unsubscribe e;
     countdownInterval := countdownInterval e;
     signalGenerationInterval := signalGenerationInterval e;
     isInitialized := isInitialized e; activeSignalIds := activeSignalIds e;
     currentOutcome := currentOutcome e |}.

Definition set_currentSignal v : Engine :=
  {| config := config e; onSignalUpdate := onSignalUpdate e;
     onOutcomeChange := onOutcomeChange e; currentSignal := v;
     tickBuffer := tickBuffer e; unsubscribe := unsubscribe e;
     countdownInterval := countdownInterval e;
     signalGenerationInterval := signalGenerationInterval e;
     isInitialized := isInitialized e; activeSignalIds := activeSignalIds e;
     currentOutcome := currentOutcome e |}.

Definition set_tickBuffer v : Engine :=
  {| config := config e; onSignalUpdate := onSignalUpdate e;
     onOutcomeChange := onOutcomeChange e; currentSignal := currentSignal e;
     tickBuffer := v; unsubscribe := unsubscribe e;
     countdownInterval := countdownInterval e;
     signalGenerationInterval := signalGenerationInterval e;
     isInitialized := isInitialized e; activeSignalIds := activeSignalIds e;
     currentOutcome := currentOutcome e |}.

Definition set_unsubscribe v : Engine :=
  {| config := config e; onSignalUpdate := onSignalUpdate e;
     onOutcomeChange := onOutcomeChange e; currentSignal := currentSignal e;
     tickBuffer := tickBuffer e; unsubscribe := v;
     countdownInterval := countdownInterval e;
     signalGenerationInterval := signalGenerationInterval e;
     isInitialized := isInitialized e; activeSignalIds := activeSignalIds e;
     currentOutcome := currentOutcome e |}.

Definition set_countdownInterval v : Engine :=
  {| config := config e; onSignalUpdate := onSignalUpdate e;
     onOutcomeChange := onOutcomeChange e; currentSignal := currentSignal e;
     tickBuffer := tickBuffer e; unsubscribe := unsubscribe e;
     countdownInterval := v;
     signalGenerationInterval := signalGenerationInterval e;
     isInitialized := isInitialized e; activeSignalIds := activeSignalIds e;
     currentOutcome := currentOutcome e |}.

Definition set_signalGenerationInterval v : Engine :=
  {| config := config e; onSignalUpdate := onSignalUpdate e;
     onOutcomeChange := onOutcomeChange e; currentSignal := currentSignal e;
     tickBuffer := tickBuffer e; unsubscribe := unsubscribe e;
     countdownInterval := countdownInterval e;
     signalGenerationInterval := v;
     isInitialized := isInitialized e; activeSignalIds := activeSignalIds e;
     currentOutcome := currentOutcome e |}.

Definition set_isInitialized v : Engine :=
  {| config := config e; onSignalUpdate := onSignalUpdate e;
     onOutcomeChange := onOutcomeChange e; currentSignal := currentSignal e;
     tickBuffer := tickBuffer e; unsubscribe := unsubscribe e;
     countdownInterval := countdownInterval e;
     signalGenerationInterval := signalGenerationInterval e;
     isInitialized := v; activeSignalIds := activeSignalIds e;
     currentOutcome := currentOutcome e |}.

Definition set_activeSignalIds v : Engine :=
  {| config := config e; onSignalUpdate := onSignalUpdate e;
     onOutcomeChange := onOutcomeChange e; currentSignal := currentSignal e;
     tickBuffer := tickBuffer e; unsubscribe := unsubscribe e;
     countdownInterval := countdownInterval e;
     signalGenerationInterval := signalGenerationInterval e;
     isInitialized := isInitialized e; activeSignalIds := v;
     currentOutcome := currentOutcome e |}.

Definition set_currentOutcome v : Engine :=
  {| config := config e; onSignalUpdate := onSignalUpdate e;
     onOutcomeChange := onOutcomeChange e; currentSignal := currentSignal e;
     tickBuffer := tickBuffer e; unsubscribe := unsubscribe e;
     countdownInterval := countdownInterval e;
     signalGenerationInterval := signalGenerationInterval e;
     isInitialized := isInitialized e; activeSignalIds := activeSignalIds e;
     currentOutcome := v |}.

End Assign.

(** [this.f = v] on a whole state. *)
Definition upd (f : Engine -> Engine) (st : State) : State :=
  {| eng := f (eng st); world := world st |}.

(** ** Browser primitives *)

Definition setInterval (k : TimerKind) (w : World) : nat * World :=
  (nextTimer w,
   {| timers := <[nextTimer w := k]> (timers w); nextTimer := S (nextTimer w);
      subscriptions := subscriptions w; signalUpdates := signalUpdates w;
      outcomeChanges := outcomeChanges w; pendingRetries := pendingRetries w |}).

Definition clearInterval (h : nat) (w : World) : World :=
  {| timers := delete h (timers w); nextTimer := nextTimer w;
     subscriptions := subscriptions w; signalUpdates := signalUpdates w;
     outcomeChanges := outcomeChanges w; pendingRetries := pendingRetries w |}.

Definition subscribeToTicks (sid : string) (w : World) : World :=
  {| timers := timers w; nextTimer := nextTimer w;
     subscriptions := subscriptions w ∪ {[ sid ]};
     signalUpdates := signalUpdates w; outcomeChanges := outcomeChanges w;
     pendingRetries := pendingRetries w |}.

Definition derivUnsubscribe (sid : string) (w : World) : World :=
  {| timers := timers w; nextTimer := nextTimer w;
     subscriptions := subscriptions w ∖ {[ sid ]};
     signalUpdates := signalUpdates w; outcomeChanges := outcomeChanges w;
     pendingRetries := pendingRetries w |}.

(** A call of the UI callback [onSignalUpdate]. *)
Definition callSignalUpdate (s : option SignalData) (w : World) : World :=
  {| timers := timers w; nextTimer := nextTimer w;
     subscriptions := subscriptions w;
     signalUpdates := signalUpdates w ++ [s];
     outcomeChanges := outcomeChanges w; pendingRetries := pendingRetries w |}.

Definition callOutcomeChange (o : TradeOutcome) (w : World) : World :=
  {| timers := timers w; nextTimer := nextTimer w;
     subscriptions := subscriptions w; signalUpdates := signalUpdates w;
     outcomeChanges := outcomeChanges w ++ [o]; pendingRetries := pendingRetries w |}.

(** [setTimeout(retry, 5000)] and its firing. *)
Definition setRetry (n : nat) (w : World) : World :=
  {| timers := timers w; nextTimer := nextTimer w;
     subscriptions := subscriptions w; signalUpdates := signalUpdates w;
     outcomeChanges := outcomeChanges w; pendingRetries := n |}.

Definition inWorld (f : World -> World) (st : State) : State :=
  {| eng := eng st; world := f (world st) |}.

(** [if (this.onSignalUpdate) this.onSignalUpdate(s)]. *)
Definition notifyUI (s : option SignalData) (st : State) : State :=
  if onSignalUpdate (eng st) then inWorld (callSignalUpdate s) st else st.

(** ** Methods of SignalOverlayEngine *)

(** handleTickData: push, then shift once when the buffer is over size. *)
Definition pushTick (buf : list TickData) (tick : TickData) : list TickData :=
  let buf := buf ++ [tick] in
  if decide (TICK_BUFFER_SIZE < length buf)%nat then drop 1 buf else buf.

Definition handleTickData (tick : TickData) (st : State) : State :=
  upd (fun e => set_tickBuffer e (pushTick (tickBuffer e) tick)) st.

(** The message handed to the subscription callback: [tickData?.tick] with
    its [quote] and [epoch], each possibly missing. *)
Module Raw.
Record Tick := { quote : option number; epoch : option number }.
Record Message := { tick : option Tick }.
End Raw.

(** ToBoolean of a number that may be [undefined]. *)
Definition truthyField (v : option number) : bool :=
  match v with Some x => truthy x | None => false end.

(** The callback given to [derivAPIService.subscribeToTicks] in
    connectToDerivAPI. *)
Definition onTick (tickData : option Raw.Message) (st : State) : State :=
  match tickData with
  | Some msg =>
      match Raw.tick msg with
      | Some t =>
          match Raw.quote t, Raw.epoch t with
          | Some qv, Some ev =>
              if truthy qv && truthy ev
              then handleTickData {| quote := qv; epoch := ev |} st
              else st
          | _, _ => st
          end
      | None => st
      end
  | None => st
  end.

(** clearCurrentSignal *)
Definition clearCurrentSignal (st : State) : State :=
  match currentSignal (eng st) with
  | Some sig =>
      let st := upd (fun e => set_activeSignalIds e (activeSignalIds e ∖ {[ id sig ]})) st in
      let st := upd (fun e => set_currentSignal e None) st in
      let st :=
        match countdownInterval (eng st) with
        | Some h => upd (fun e => set_countdownInterval e None) (inWorld (clearInterval h) st)
        | None => st
        end in
      notifyUI None st
  | None => st
  end.

(** The object spread [{ ...sig, remainingSeconds }]. *)
Definition withRemaining (sig : SignalData) (remaining : Z) : SignalData :=
  {| id := id sig; type := type sig; market := market sig;
     confidence := confidence sig; createdAt := createdAt sig;
     expiresAt := expiresAt sig; remainingSeconds := remaining;
     distributionAnalysis := distributionAnalysis sig |}.

(** [Math.max(0, Math.floor((sig.expiresAt - now) / 1000))]. *)
Definition remainingAt (sig : SignalData) (now : Z) : Z :=
  let remainingMs := expiresAt sig - now in
  Z.max 0 (remainingMs / 1000).

(** The callback installed by startCountdown, run with the reading [now] of
    the clock. *)
Definition countdownTick (now : Z) (st : State) : State :=
  match currentSignal (eng st) with
  | None =>
      match countdownInterval (eng st) with
      | Some h => inWorld (clearInterval h) st
      | None => st
      end
  | Some sig =>
      let remaining := remainingAt sig now in
      let st := upd (fun e => set_currentSignal e (Some (withRemaining sig remaining))) st in
      let st := notifyUI (Some (withRemaining sig remaining)) st in
      if remaining <=? 0 then clearCurrentSignal st else st
  end.

(** startCountdown *)
Definition startCountdown (st : State) : State :=
  let st :=
    match countdownInterval (eng st) with
    | Some h => inWorld (clearInterval h) st
    | None => st
    end in
  let '(h, w) := setInterval CountdownTimer (world st) in
  {| eng := set_countdownInterval (eng st) (Some h); world := w |}.

(** The identifier [`signal-${t}`]. *)
Definition signalIdOf (t : Z) : string := "signal-" +:+ pretty t.

(** The object literal built by generateSignal. *)
Definition newSignal (analysis : DistributionAnalysis) (signalId : string)
    (now : Z) : SignalData :=
  {| id := signalId;
     type := bias analysis;
     market := MARKET;
     confidence := Math_round (confidenceScore analysis);
     createdAt := now;
     expiresAt := now + SIGNAL_DURATION * 1000;
     remainingSeconds := SIGNAL_DURATION;
     distributionAnalysis := analysis |}.

(** generateSignal; [t0] and [now] are its two readings of the clock. *)
Definition generateSignal (analysis : DistributionAnalysis) (t0 now : Z)
    (st : State) : State :=
  let signalId := signalIdOf t0 in
  if decide (signalId ∈ activeSignalIds (eng st)) then st
  else
    let signal := newSignal analysis signalId now in
    let st := upd (fun e => set_currentSignal e (Some signal)) st in
    let st := upd (fun e => set_activeSignalIds e (activeSignalIds e ∪ {[ signalId ]})) st in
    let st := notifyUI (Some signal) st in
    startCountdown st.

(** checkAndGenerateSignal, the callback installed by startSignalGeneration. *)
Definition checkAndGenerateSignal (t0 now : Z) (st : State) : State :=
  match currentSignal (eng st) with
  | Some _ => st
  | None =>
      if decide (length (tickBuffer (eng st)) < MIN_TICKS_FOR_ANALYSIS)%nat then st
      else
        let analysis := analyzeDistribution (tickBuffer (eng st)) in
        if ltb (confidenceScore analysis) CONFIDENCE_THRESHOLD then st
        else if decide (bias analysis <> NEUTRAL)
             then generateSignal analysis t0 now st
             else st
  end.

(** startSignalGeneration *)
Definition startSignalGeneration (st : State) : State :=
  let st :=
    match signalGenerationInterval (eng st) with
    | Some h => inWorld (clearInterval h) st
    | None => st
    end in
  let '(h, w) := setInterval SignalGenerationTimer (world st) in
  {| eng := set_signalGenerationInterval (eng st) (Some h); world := w |}.

(** connectToDerivAPI.  [conn] is what the Deriv API answers: [Some sid]
    when it opens a tick subscription and returns its id [sid], a truthy
    (non-empty) string; [None] when the API is not connected or the id it
    returns is falsy (absent or empty), which the source turns into the
    same failure.  On success the engine keeps the closure that
    releases this subscription; on failure it arms a retry in 5 seconds and
    rethrows.  The second component tells whether the promise resolved. *)
Definition connectToDerivAPI (conn : option string) (st : State) : State * bool :=
  match conn with
  | Some sid =>
      let st := inWorld (subscribeToTicks sid) st in
      (upd (fun e => set_unsubscribe e (Some sid)) st, true)
  | None =>
      (inWorld (fun w => setRetry (S (pendingRetries w)) w) st, false)
  end.

(** The retry armed by a failed connectToDerivAPI. *)
Definition retryConnection (conn : option string) (st : State) : State :=
  if isInitialized (eng st) then fst (connectToDerivAPI conn st) else st.

(** initialize *)
Definition initialize (cfg : NumericSignalConfig) (conn : option string)
    (st : State) : State * bool :=
  if isInitialized (eng st) then (st, true)
  else
    let st := upd (fun e => set_callbacks (set_config e (Some cfg)) true true) st in
    let '(st, connected) := connectToDerivAPI conn st in
    if connected then
      let st := startSignalGeneration st in
      (upd (fun e => set_isInitialized e true) st, true)
    else (st, false).

(** reload *)
Definition reload (cfg : NumericSignalConfig) (st : State) : State :=
  clearCurrentSignal (upd (fun e => set_config e (Some cfg)) st).

(** updateOutcome *)
Definition updateOutcome (outcome : TradeOutcome) (st : State) : State :=
  if decide (currentOutcome (eng st) <> outcome) then
    let st := upd (fun e => set_currentOutcome e outcome) st in
    if onOutcomeChange (eng st) then inWorld (callOutcomeChange outcome) st else st
  else st.

(** destroy *)
Definition destroy (st : State) : State :=
  let st :=
    match unsubscribe (eng st) with
    | Some sid => upd (fun e => set_unsubscribe e None) (inWorld (derivUnsubscribe sid) st)
    | None => st
    end in
  let st :=
    match countdownInterval (eng st) with
    | Some h => upd (fun e => set_countdownInterval e None) (inWorld (clearInterval h) st)
    | None => st
    end in
  let st :=
    match signalGenerationInterval (eng st) with
    | Some h => upd (fun e => set_signalGenerationInterval e None) (inWorld (clearInterval h) st)
    | None => st
    end in
  let st := upd (fun e => set_currentSignal e None) st in
  let st := upd (fun e => set_tickBuffer e []) st in
  let st := upd (fun e => set_activeSignalIds e ∅) st in
  upd (fun e => set_isInitialized e false) st.

(** ** waitForAPI *)

(** [api_base.api] as the engine reads it: whether it is there, its
    connection with its [readyState], and whether [send] is a function. *)
Record ApiConnection := { readyState : Z }.
Record Api := { connection : option ApiConnection; sendIsFunction : bool }.
Record ApiBase := { api : option Api }.

(** The test of checkAPI: [isConnected || (hasApiBase && canSend)]. *)
Definition apiReady (b : ApiBase) : bool :=
  match api b with
  | Some a =>
      let isConnected :=
        match connection a with Some c => readyState c =? 1 | None => false end in
      isConnected || sendIsFunction a
  | None => false
  end.

(** The test connectToDerivAPI makes after waiting: the negation of
    [!api || !api.connection || api.connection.readyState !== 1]. *)
Definition apiConnected (b : ApiBase) : bool :=
  match api b with
  | Some a => match connection a with Some c => readyState c =? 1 | None => false end
  | None => false
  end.

Inductive WaitResult := Resolved | Rejected | Pending.

(** waitForAPI, driven by what its successive runs of checkAPI observe: the
    clock and the API.  [Pending]: a further check is scheduled. *)
Fixpoint waitForAPI (startTime timeout : Z) (checks : list (Z * ApiBase))
  : WaitResult :=
  match checks with
  | [] => Pending
  | (now, b) :: rest =>
      let elapsed := now - startTime in
      if apiReady b then Resolved
      else if timeout <=? elapsed then Rejected
      else waitForAPI startTime timeout rest
  end.

(** ** Runs of the engine *)

(** What can happen to the singleton engine: calls of its public methods by
    the UI, a message of the tick stream, and a firing of an interval timer
    (with the readings of the clock made during the callback). *)
Inductive Event :=
  | EInitialize (cfg : NumericSignalConfig) (conn : option string)
  | EReload (cfg : NumericSignalConfig)
  | EUpdateOutcome (outcome : TradeOutcome)
  | EDestroy
  | ETick (tickData : option Raw.Message)
  | ETimer (h : nat) (t0 now : Z)
  | ERetry (conn : option string).

(** A cleared handle never fires; a live one runs the callback it was set
    with. *)
Definition fire (h : nat) (t0 now : Z) (st : State) : State :=
  match timers (world st) !! h with
  | Some SignalGenerationTimer => checkAndGenerateSignal t0 now st
  | Some CountdownTimer => countdownTick t0 st
  | None => st
  end.

Definition step (st : State) (ev : Event) : State :=
  match ev with
  | EInitialize cfg conn => fst (initialize cfg conn st)
  | EReload cfg => reload cfg st
  | EUpdateOutcome o => updateOutcome o st
  | EDestroy => destroy st
  | ETick d => onTick d st
  | ETimer h t0 now => fire h t0 now st
  | ERetry conn =>
      match pendingRetries (world st) with
      | S n => retryConnection conn (inWorld (setRetry n) st)
      | O => st
      end
  end.

Definition run (evs : list Event) (st : State) : State := fold_left step evs st.

(** ** SignalOverlay.tsx: the list of available signals *)

(** handleSignalUpdate: the state updater it passes to setAvailableSignals,
    with its reading [now] of the clock. *)
Definition handleSignalUpdate (signal : option SignalData) (now : Z)
    (prev : list SignalData) : list SignalData :=
  match signal with
  | None => prev
  | Some signal =>
      let active := List.filter (fun s => now <? expiresAt s) prev in
      match List.find (fun s => String.eqb (id s) (id signal)) active with
      | Some _ =>
          map (fun s => if String.eqb (id s) (id signal) then signal else s) active
      | None => take 5 (signal :: active)
      end
  end.

(** The updater run every second by the component's own interval. *)
Definition refreshSignals (now : Z) (prev : list SignalData) : list SignalData :=
  List.filter (fun s => 0 <? remainingSeconds s)
    (map (fun s => withRemaining s (Z.max 0 ((expiresAt s - now) / 1000))) prev).

(** What happens to the list: a notification from the engine or a tick of
    the component's interval. *)
Inductive UiEvent :=
  | UiSignal (signal : option SignalData) (now : Z)
  | UiRefresh (now : Z).

Definition uiStep (l : list SignalData) (ev : UiEvent) : list SignalData :=
  match ev with
  | UiSignal signal now => handleSignalUpdate signal now l
  | UiRefresh now => refreshSignals now l
  end.

Definition uiRun (evs : list UiEvent) : list SignalData := fold_left uiStep evs [].

(** ** SignalOverlay.tsx: formatRemainingTime *)

(** [String.prototype.padStart(n, c)] for a one-character pad. *)
Definition padStart (n : nat) (c : Ascii.ascii) (s : string) : string :=
  Nat.iter (n - String.length s) (String c) s.

(** formatRemainingTime, on a whole number of seconds of magnitude below
    2^53, where a [number] holds the integer exactly, the quotient's floor
    is the floor division of [Z] and [toString] prints plain decimal digits
    (from 10^21 on it prints an exponent, which this function does not
    follow): the minutes are [Math.floor(seconds / 60)], the seconds the
    remainder [seconds % 60] (truncated, with the sign of [seconds]). *)
Definition formatRemainingTime (seconds : Z) : string :=
  let mins := seconds / 60 in
  let secs := Z.rem seconds 60 in
  pretty mins +:+ ":" +:+ padStart 2 "0"%char (pretty secs).

(** ** Vocabulary of the statements *)

(** A tick is classified high (OVER, digits 5-9) or low (UNDER, digits 0-4
    and everything that is not a digit) by the test of the counting loop. *)
Definition isHigh (tick : TickData) : bool := geb (lastDigit (quote tick)) (ofZ 5).

Definition highCount (ticks : list TickData) : nat := length (List.filter isHigh ticks).
Definition lowCount (ticks : list TickData) : nat :=
  length (List.filter (fun t => negb (isHigh t)) ticks).

(** The percentage [(k / total) * 100] as the code computes it. *)
Definition percentage (k total : Z) : number :=
  mul (div (ofZ k) (ofZ total)) (ofZ 100).

(** The window the analysis reads. *)
Definition window (buf : list TickData) : list TickData :=
  slice_last MIN_TICKS_FOR_ANALYSIS buf.

(** A run of detection polls, each with its two readings of the clock. *)
Definition runPolls (polls : list (Z * Z)) (st : State) : State :=
  fold_left (fun s p => checkAndGenerateSignal (fst p) (snd p) s) polls st.

(** Ingesting a sequence of ticks. *)
Definition ingest (ticks : list TickData) (st : State) : State :=
  fold_left (fun s t => handleTickData t s) ticks st.

(** What the bias block yields for [h] high samples out of 50, in integers. *)
Definition decisionAt50 (h : Z) : Bias * number :=
  if 31 <=? h then (UNDER, ofZ (Z.min 95 (2 * h + 5)))
  else if h <=? 19 then (OVER, ofZ (Z.min 95 (2 * (50 - h) + 5)))
  else (NEUTRAL, ofZ 50).

(** [tickData?.tick?.quote] and [tickData?.tick?.epoch]. *)
Definition sampleQuote (d : option Raw.Message) : option number :=
  match d with
  | Some msg => match Raw.tick msg with Some t => Raw.quote t | None => None end
  | None => None
  end.

Definition sampleEpoch (d : option Raw.Message) : option number :=
  match d with
  | Some msg => match Raw.tick msg with Some t => Raw.epoch t | None => None end
  | None => None
  end.

Definition infiniteSample : option Raw.Message :=
  Some {| Raw.tick := Some {| Raw.quote := Some (S754_infinity false);
                              Raw.epoch := Some (ofZ 1700000000) |} |}.

(** ** The invariant *)

(** The engine field that holds a timer of kind [k]. *)
Definition handleOf (e : Engine) (k : TimerKind) : option nat :=
  match k with
  | SignalGenerationTimer => signalGenerationInterval e
  | CountdownTimer => countdownInterval e
  end.

Record Inv (st : State) : Prop := {
  (* the id set holds exactly the id of the active signal *)
  inv_ids :
    activeSignalIds (eng st) =
    match currentSignal (eng st) with Some s => {[ id s ]} | None => ∅ end;
  (* the buffer is bounded *)
  inv_buf : (length (tickBuffer (eng st)) <= TICK_BUFFER_SIZE)%nat;
  (* every live timer is the one the engine holds for its kind *)
  inv_timers :
    forall h k, timers (world st) !! h = Some k ->
      (h < nextTimer (world st))%nat /\ handleOf (eng st) k = Some h;
  (* the active signal expires 120 seconds after its creation *)
  inv_sig :
    forall sig, currentSignal (eng st) = Some sig ->
      expiresAt sig = createdAt sig + SIGNAL_DURATION * 1000;
}.

Ltac open_state st :=
  let e := fresh "e" in let w := fresh "w" in
  destruct st as [e w]; destruct e, w; cbn in *.

(** Timers untouched, handles untouched. *)
Ltac same_timers H :=
  let h := fresh "h" in let k := fresh "k" in let Hl := fresh "Hl" in
  intros h k Hl; destruct (H _ _ Hl); split; [assumption|];
  destruct k; assumption.

(** ** Liveness bookkeeping *)

(** What ties the engine's fields to the browser side: every handle the
    engine holds is a live timer of that kind; the countdown handle is held
    exactly while a Signal is active, the poll handle and the subscription
    closure exactly while the engine is initialised, the subscription the
    closure releases is a live one, and a Signal is active only while the
    engine is initialised. *)
Record Live (st : State) : Prop := {
  live_inv : Inv st;
  live_held :
    forall k h, handleOf (eng st) k = Some h -> timers (world st) !! h = Some k;
  live_countdown :
    is_Some (currentSignal (eng st)) <-> is_Some (countdownInterval (eng st));
  live_poll :
    isInitialized (eng st) = true <-> is_Some (signalGenerationInterval (eng st));
  live_unsub :
    isInitialized (eng st) = true <-> is_Some (unsubscribe (eng st));
  live_sub :
    forall sid, unsubscribe (eng st) = Some sid -> sid ∈ subscriptions (world st);
  live_active :
    is_Some (currentSignal (eng st)) -> isInitialized (eng st) = true;
}.

(** Goals of the shape [is_Some a <-> is_Some b] and [b = true <-> is_Some a]
    on explicit constructors. *)
Ltac presence :=
  try tauto;
  split; intros;
  repeat match goal with
  | H : is_Some None |- _ => destruct H as [? H]; discriminate H
  | H : is_Some (Some _) |- _ => clear H
  | H : false = true |- _ => discriminate H
  | H : _ <-> _ |- _ => destruct H
  end;
  eauto; try reflexivity; try discriminate.

(** ** Further vocabulary *)

(** Fields no timer callback, reload or retry touches. *)
Definition keeps (st st' : State) : Prop :=
  tickBuffer (eng st') = tickBuffer (eng st)
  /\ currentOutcome (eng st') = currentOutcome (eng st)
  /\ outcomeChanges (world st') = outcomeChanges (world st)
  /\ onOutcomeChange (eng st') = onOutcomeChange (eng st)
  /\ onSignalUpdate (eng st') = onSignalUpdate (eng st).

Definition truthyTick (t : TickData) : Prop :=
  truthy (quote t) = true /\ truthy (epoch t) = true.

(** The tick the subscription callback hands to handleTickData, if any. *)
Definition acceptedTick (d : option Raw.Message) : option TickData :=
  match sampleQuote d, sampleEpoch d with
  | Some qv, Some ev =>
      if truthy qv && truthy ev then Some {| quote := qv; epoch := ev |} else None
  | _, _ => None
  end.

(** The ticks accepted since the last destroy, oldest first. *)
Definition acceptedSince (acc : list TickData) (ev : Event) : list TickData :=
  match ev with
  | ETick d => match acceptedTick d with Some t => acc ++ [t] | None => acc end
  | EDestroy => []
  | _ => acc
  end.

Definition accepted (evs : list Event) : list TickData :=
  fold_left acceptedSince evs [].

(** No two neighbours of the list are equal. *)
Fixpoint noRepeat (l : list TradeOutcome) : Prop :=
  match l with
  | a :: (b :: _) as tl => a <> b /\ noRepeat tl
  | _ => True
  end.

Record OutcomeOK (st : State) : Prop := {
  out_silent : onOutcomeChange (eng st) = false -> outcomeChanges (world st) = [];
  out_last : forall o, last (outcomeChanges (world st)) = Some o ->
             currentOutcome (eng st) = o;
  out_norepeat : noRepeat (outcomeChanges (world st));
}.

(** What every Signal the engine builds satisfies. *)
Record GoodSignal (s : SignalData) : Prop := {
  good_type : type s = OVER \/ type s = UNDER;
  good_bias : type s = bias (distributionAnalysis s);
  good_market : market s = MARKET;
  good_conf_low : geb (confidence s) (ofZ 67) = true;
  good_conf_high : geb (ofZ 95) (confidence s) = true;
  good_conf : confidence s = confidenceScore (distributionAnalysis s);
  good_expiry : expiresAt s = createdAt s + 120 * 1000;
  good_id : exists t, id s = signalIdOf t;
  good_window : length (recentTicks (distributionAnalysis s)) = 50%nat;
  good_remaining : 0 <= remainingSeconds s;
}.

Record Published (st : State) : Prop := {
  pub_current :
    forall s, currentSignal (eng st) = Some s -> GoodSignal s /\ 0 < remainingSeconds s;
  pub_updates :
    Forall (fun o => forall s, o = Some s -> GoodSignal s) (signalUpdates (world st));
}.

(** The two decimal digits of a number below 100. *)
Definition twoDigits (n : Z) : string :=
  String (pretty_N_char (Z.to_N (n / 10)))
    (String (pretty_N_char (Z.to_N (n mod 10))) "").

(** Successive checks are at least 500 ms apart, the first not before the
    start. *)
Fixpoint spaced (prev : Z) (gap : Z) (checks : list (Z * ApiBase)) : Prop :=
  match checks with
  | [] => True
  | (now, _) :: rest => prev + gap <= now /\ spaced now 500 rest
  end.

(** A check that neither resolves nor rejects. *)
Definition inconclusive (startTime timeout : Z) (c : Z * ApiBase) : Prop :=
  apiReady (snd c) = false /\ fst c - startTime < timeout.

(** The counts whose percentage of 50 is not computed exactly. *)
Definition inexactCount (k : Z) : Prop := k = 7 \/ k = 14 \/ k = 28 \/ k = 29.

(** ** Concrete runs used as test inputs *)

Definition highTick : TickData :=
  {| quote := div (ofZ 105) (ofZ 100); epoch := ofZ 1700000000 |}.   (* 1.05 *)
Definition lowTick : TickData :=
  {| quote := div (ofZ 101) (ofZ 100); epoch := ofZ 1700000000 |}.   (* 1.01 *)

Definition message (t : TickData) : option Raw.Message :=
  Some {| Raw.tick := Some {| Raw.quote := Some (quote t); Raw.epoch := Some (epoch t) |} |}.

Definition demoConfig : NumericSignalConfig :=
  {| prediction1 := ofZ 0; prediction2 := ofZ 0; takeProfit := ofZ 0; stopLoss := ofZ 0 |}.

(** Started, 31 high and 19 low ticks received, no poll yet. *)
Definition idleEvents : list Event :=
  EInitialize demoConfig (Some "sub-1")
  :: repeat (ETick (message highTick)) 31 ++ repeat (ETick (message lowTick)) 19.

Definition idleDemo : State := run idleEvents initState.

(** The poll (timer 1) fired at time 1000: a signal is active until 121000. *)
Definition activeEvents : list Event := idleEvents ++ [ETimer 1 1000 1000].

Definition activeDemo : State := run activeEvents initState.

(** The countdown (timer 2) fired at time 76000: 45 seconds remain. *)
Definition midCountdownDemo : State := run [ETimer 2 76000 76000] activeDemo.

Definition demoSignal : SignalData :=
  newSignal (analyzeDistribution (tickBuffer (eng idleDemo))) (signalIdOf 1000) 1000.

Definition noApi : ApiBase := {| api := None |}.

(** ** The analysis *)

Lemma highCount_lowCount (ticks : list TickData) :
  (highCount ticks + lowCount ticks = length ticks)%nat.
Proof.
  unfold highCount, lowCount.
  induction ticks as [|t ticks IH]; simpl; [reflexivity|].
  destruct (isHigh t); simpl; lia.
Qed.

Lemma countDigits_acc (ticks : list TickData) (acc : Z * Z) :
  fold_left countDigit (map (fun tick => lastDigit (quote tick)) ticks) acc
  = (fst acc + Z.of_nat (highCount ticks), snd acc + Z.of_nat (lowCount ticks)).
Proof.
  revert acc.
  induction ticks as [|t ticks IH]; intros [o u]; cbn [map fold_left].
  - unfold highCount, lowCount; cbn. f_equal; lia.
  - rewrite IH. unfold countDigit, highCount, lowCount. cbn [List.filter fst snd].
    fold (isHigh t). destruct (isHigh t); cbn [negb length fst snd]; f_equal; lia.
Qed.

Lemma countDigits_window (ticks : list TickData) :
  countDigits (map (fun tick => lastDigit (quote tick)) ticks)
  = (Z.of_nat (highCount ticks), Z.of_nat (lowCount ticks)).
Proof. unfold countDigits. rewrite countDigits_acc. reflexivity. Qed.

Lemma length_slice_last {A} (n : nat) (l : list A) :
  length (slice_last n l) = Nat.min n (length l).
Proof. unfold slice_last. rewrite length_drop. lia. Qed.

Lemma length_window (buf : list TickData) :
  (MIN_TICKS_FOR_ANALYSIS <= length buf)%nat ->
  length (window buf) = MIN_TICKS_FOR_ANALYSIS.
Proof. intros H. unfold window. rewrite length_slice_last. lia. Qed.

Lemma slice_last_app {A} (n : nat) (pre w : list A) :
  length w = n -> slice_last n (pre ++ w) = w.
Proof.
  intros H. unfold slice_last. rewrite length_app.
  replace (length pre + length w - n)%nat with (length pre) by lia.
  apply drop_app_length.
Qed.

(** The snapshot, field by field, in terms of the window. *)
Lemma analyzeDistribution_window (buf : list TickData) :
  let w := window buf in
  let n := Z.of_nat (length w) in
  let h := Z.of_nat (highCount w) in
  let l := Z.of_nat (lowCount w) in
  analyzeDistribution buf =
  {| recentTicks := map (fun tick => lastDigit (quote tick)) w;
     overCount := h;
     underCount := l;
     overPercentage := percentage h n;
     underPercentage := percentage l n;
     bias := fst (determineBias (percentage h n) (percentage l n));
     confidenceScore := snd (determineBias (percentage h n) (percentage l n)) |}.
Proof.
  cbv zeta. unfold analyzeDistribution. fold (window buf).
  rewrite countDigits_window, length_map. reflexivity.
Qed.

(** ** The bias rule on a window of 50 *)

Lemma decision_table (k : nat) :
  (k <= 50)%nat ->
  let h := Z.of_nat k in
  determineBias (percentage h 50) (percentage (50 - h) 50) = decisionAt50 h
  /\ percentage h 50 <> ofZ 61
  /\ (fst (decisionAt50 h) <> NEUTRAL ->
      geb (snd (decisionAt50 h)) (ofZ 67) = true
      /\ gtb (snd (decisionAt50 h)) CONFIDENCE_THRESHOLD = true
      /\ ltb (snd (decisionAt50 h)) CONFIDENCE_THRESHOLD = false)
  /\ (30 <= h -> percentage h 50 = ofZ (2 * h)).
Proof.
  intros Hk.
  do 51 (destruct k as [|k];
         [vm_compute; repeat split; try reflexivity; try discriminate;
          intros; congruence|]).
  lia.
Qed.

(** The snapshot of a buffer of at least 50 ticks, in terms of the number
    of high ticks in its window. *)
Lemma analysis_of_full_buffer (buf : list TickData) :
  (MIN_TICKS_FOR_ANALYSIS <= length buf)%nat ->
  let a := analyzeDistribution buf in
  let h := Z.of_nat (highCount (window buf)) in
  0 <= h <= 50
  /\ overCount a = h
  /\ underCount a = 50 - h
  /\ overPercentage a = percentage h 50
  /\ underPercentage a = percentage (50 - h) 50
  /\ (bias a, confidenceScore a) = decisionAt50 h.
Proof.
  intros Hlen. cbv zeta.
  pose proof (length_window buf Hlen) as Hw.
  pose proof (highCount_lowCount (window buf)) as Hsum.
  rewrite Hw in Hsum. unfold MIN_TICKS_FOR_ANALYSIS in *.
  assert (Hl : Z.of_nat (lowCount (window buf)) = 50 - Z.of_nat (highCount (window buf))) by lia.
  assert (Hk : (highCount (window buf) <= 50)%nat) by lia.
  destruct (decision_table _ Hk) as (Hd & _ & _ & _).
  rewrite analyzeDistribution_window. cbn [overCount underCount overPercentage
    underPercentage bias confidenceScore].
  rewrite Hw, Hl. change (Z.of_nat 50) with 50.
  repeat split; try lia.
  rewrite <- Hd. symmetry. apply surjective_pairing.
Qed.

(** ** Preservation of the invariant *)

Lemma Inv_initState : Inv initState.
Proof.
  split; cbn; try reflexivity; try lia; try discriminate.
Qed.

Lemma length_pushTick (buf : list TickData) (tick : TickData) :
  (length buf <= TICK_BUFFER_SIZE)%nat ->
  (length (pushTick buf tick) <= TICK_BUFFER_SIZE)%nat.
Proof.
  intros H. unfold pushTick.
  destruct (decide _) as [Hgt|Hle].
  - rewrite length_drop, length_app. cbn. lia.
  - lia.
Qed.

Lemma Inv_handleTickData (tick : TickData) (st : State) :
  Inv st -> Inv (handleTickData tick st).
Proof.
  intros [H1 H2 H3 H6]. open_state st.
  split; cbn; auto using length_pushTick.
Qed.

Lemma Inv_onTick (d : option Raw.Message) (st : State) :
  Inv st -> Inv (onTick d st).
Proof.
  intros H. unfold onTick.
  destruct d as [[[[[qv|] [ev|]]|]]|]; cbn; auto.
  destruct (truthy qv && truthy ev); auto using Inv_handleTickData.
Qed.

Lemma Inv_notifyUI (s : option SignalData) (st : State) :
  Inv st -> Inv (notifyUI s st).
Proof.
  intros [H1 H2 H3 H6]. unfold notifyUI.
  destruct (onSignalUpdate (eng st)); split; auto.
Qed.

Lemma Inv_clearCurrentSignal (st : State) :
  Inv st -> Inv (clearCurrentSignal st).
Proof.
  intros H. unfold clearCurrentSignal.
  destruct (currentSignal (eng st)) as [sig|] eqn:Hcur; [|exact H].
  apply Inv_notifyUI.
  destruct H as [H1 H2 H3 H6]. open_state st. subst.
  destruct countdownInterval0 as [h|]; split; cbn; auto; try discriminate.
  all: try (rewrite difference_diag_L; reflexivity).
  intros h' k Hl. destruct (decide (h = h')) as [->|Hne].
    + rewrite lookup_delete_eq in Hl. discriminate.
    + rewrite lookup_delete_ne in Hl by assumption.
      destruct (H3 _ _ Hl) as [Hlt Ho]. split; [assumption|].
      destruct k; cbn in *; congruence.
Qed.

(** Installing a fresh timer of kind [k], after clearing the one the engine
    held for that kind, keeps every live timer owned. *)
Lemma timers_after_restart (k : TimerKind) (e e' : Engine)
    (tm : gmap nat TimerKind) (next : nat) :
  (forall h k', tm !! h = Some k' -> (h < next)%nat /\ handleOf e k' = Some h) ->
  handleOf e' k = Some next ->
  (forall k', k' <> k -> handleOf e' k' = handleOf e k') ->
  forall h k',
    <[next := k]> (match handleOf e k with Some h0 => delete h0 tm | None => tm end) !! h
      = Some k' ->
    (h < S next)%nat /\ handleOf e' k' = Some h.
Proof.
  intros Hold Hk Hother h k' Hl.
  destruct (decide (next = h)) as [->|Hne].
  - rewrite lookup_insert_eq in Hl. inversion Hl; subst. split; [lia|assumption].
  - rewrite lookup_insert_ne in Hl by assumption.
    assert (Hin : tm !! h = Some k' /\ handleOf e k <> Some h).
    { destruct (handleOf e k) as [h0|] eqn:Hk0.
      - destruct (decide (h0 = h)) as [->|Hne'].
        + rewrite lookup_delete_eq in Hl. discriminate.
        + rewrite lookup_delete_ne in Hl by assumption. split; congruence.
      - split; [assumption|discriminate]. }
    destruct Hin as [Hl' Hnot]. destruct (Hold _ _ Hl') as [Hlt Ho].
    split; [lia|].
    destruct (decide (k' = k)) as [->|Hkk]; [congruence|].
    rewrite Hother by assumption. assumption.
Qed.

Lemma Inv_startCountdown (st : State) :
  Inv st -> Inv (startCountdown st).
Proof.
  intros [H1 H2 H3 H6]. destruct st as [e w]. cbn in *.
  unfold startCountdown. cbn [eng].
  destruct (countdownInterval e) as [h0|] eqn:E; cbn; (split; cbn; auto; []).
  all: intros h k Hl;
    apply (timers_after_restart CountdownTimer e _ (timers w) (nextTimer w) H3);
    [reflexivity | intros [] Hne; [reflexivity|congruence] | cbn; rewrite E; exact Hl].
Qed.

Lemma Inv_startSignalGeneration (st : State) :
  Inv st -> Inv (startSignalGeneration st).
Proof.
  intros [H1 H2 H3 H6]. destruct st as [e w]. cbn in *.
  unfold startSignalGeneration. cbn [eng].
  destruct (signalGenerationInterval e) as [h0|] eqn:E; cbn; (split; cbn; auto; []).
  all: intros h k Hl;
    apply (timers_after_restart SignalGenerationTimer e _ (timers w) (nextTimer w) H3);
    [reflexivity | intros [] Hne; [congruence|reflexivity] | cbn; rewrite E; exact Hl].
Qed.

Lemma Inv_generateSignal (a : DistributionAnalysis) (t0 now : Z) (st : State) :
  currentSignal (eng st) = None ->
  Inv st -> Inv (generateSignal a t0 now st).
Proof.
  intros Hidle H. unfold generateSignal.
  destruct (decide _) as [Hdup|Hfresh]; [exact H|].
  apply Inv_startCountdown, Inv_notifyUI.
  destruct H as [H1 H2 H3 H6]. destruct st as [e w]. cbn in *.
  rewrite Hidle in H1.
  split; cbn; auto; try same_timers H3.
  - rewrite H1. apply (left_id_L ∅ (∪)).
  - intros sig [= <-]. reflexivity.
Qed.

Lemma Inv_checkAndGenerateSignal (t0 now : Z) (st : State) :
  Inv st -> Inv (checkAndGenerateSignal t0 now st).
Proof.
  intros H. unfold checkAndGenerateSignal.
  destruct (currentSignal (eng st)) eqn:Hcur; [exact H|].
  destruct (decide _); [exact H|].
  destruct (ltb _ _); [exact H|].
  destruct (decide _); [|exact H].
  apply Inv_generateSignal; assumption.
Qed.

Lemma Inv_countdownTick (now : Z) (st : State) :
  Inv st -> Inv (countdownTick now st).
Proof.
  intros H. unfold countdownTick.
  destruct (currentSignal (eng st)) as [sig|] eqn:Hcur.
  - assert (Hinv : Inv (notifyUI (Some (withRemaining sig (remainingAt sig now)))
      (upd (fun e => set_currentSignal e (Some (withRemaining sig (remainingAt sig now)))) st))).
    { apply Inv_notifyUI.
      destruct H as [H1 H2 H3 H6]. destruct st as [e w]. cbn in *.
      rewrite Hcur in H1.
      split; cbn; auto; try same_timers H3.
      intros s [= <-]. cbn. apply H6. exact Hcur. }
    cbv zeta. destruct (_ <=? 0); [apply Inv_clearCurrentSignal|]; exact Hinv.
  - destruct H as [H1 H2 H3 H6]. destruct st as [e w]. cbn in *.
    destruct (countdownInterval e) as [h0|] eqn:E; split; cbn; auto.
    intros h k Hl. destruct (decide (h0 = h)) as [->|Hne].
    + rewrite lookup_delete_eq in Hl. discriminate.
    + rewrite lookup_delete_ne in Hl by assumption. auto.
Qed.

Lemma Inv_connectToDerivAPI (conn : option string) (st : State) :
  Inv st -> Inv (fst (connectToDerivAPI conn st)).
Proof.
  intros [H1 H2 H3 H6]. destruct st as [e w].
  destruct conn as [sid|]; split; cbn in *; auto; try same_timers H3.
Qed.

Lemma Inv_retryConnection (conn : option string) (st : State) :
  Inv st -> Inv (retryConnection conn st).
Proof.
  intros H. unfold retryConnection.
  destruct (isInitialized (eng st)); auto using Inv_connectToDerivAPI.
Qed.

Lemma Inv_initialize (cfg : NumericSignalConfig) (conn : option string) (st : State) :
  Inv st -> Inv (fst (initialize cfg conn st)).
Proof.
  intros H. unfold initialize.
  destruct (isInitialized (eng st)) eqn:Hinit; [exact H|].
  assert (H0 : Inv (upd (fun e => set_callbacks (set_config e (Some cfg)) true true) st)).
  { destruct H as [H1 H2 H3 H6]. destruct st as [e w]. cbn in *.
    split; cbn; auto; try same_timers H3. }
  pose proof (Inv_connectToDerivAPI conn _ H0) as H1.
  destruct (connectToDerivAPI conn _) as [st1 [|]]; cbn [fst] in *; [|exact H1].
  apply Inv_startSignalGeneration in H1.
  destruct H1 as [H1 H2 H3 H6].
  split; cbn; auto; try same_timers H3.
Qed.

Lemma Inv_reload (cfg : NumericSignalConfig) (st : State) :
  Inv st -> Inv (reload cfg st).
Proof.
  intros [H1 H2 H3 H6]. apply Inv_clearCurrentSignal.
  split; cbn; auto; try same_timers H3.
Qed.

Lemma Inv_updateOutcome (o : TradeOutcome) (st : State) :
  Inv st -> Inv (updateOutcome o st).
Proof.
  intros [H1 H2 H3 H6]. unfold updateOutcome.
  destruct (decide _); [|split; auto].
  cbn. destruct (onOutcomeChange (eng st)); split; cbn; auto; try same_timers H3.
Qed.

(** What destroy leaves behind, from any state that satisfies the
    invariant. *)
Lemma destroy_post (st : State) :
  Inv st ->
  let st' := destroy st in
  timers (world st') = ∅
  /\ subscriptions (world st')
     = match unsubscribe (eng st) with
       | Some sid => subscriptions (world st) ∖ {[ sid ]}
       | None => subscriptions (world st)
       end
  /\ tickBuffer (eng st') = []
  /\ currentSignal (eng st') = None
  /\ activeSignalIds (eng st') = ∅
  /\ unsubscribe (eng st') = None
  /\ countdownInterval (eng st') = None
  /\ signalGenerationInterval (eng st') = None
  /\ isInitialized (eng st') = false
  /\ nextTimer (world st') = nextTimer (world st)
  /\ signalUpdates (world st') = signalUpdates (world st)
  /\ outcomeChanges (world st') = outcomeChanges (world st).
Proof.
  intros [H1 H2 H3 H6]. destruct st as [e w]. cbn in *.
  unfold destroy. cbn [eng].
  destruct (unsubscribe e) as [sid|] eqn:Eu; cbn;
    destruct (countdownInterval e) as [hc|] eqn:Ec; cbn;
    destruct (signalGenerationInterval e) as [hs|] eqn:Es; cbn.
  all: repeat split; auto.
  all: apply map_eq; intros h; rewrite lookup_empty;
    repeat match goal with
    | |- delete ?x _ !! h = None =>
        destruct (decide (x = h)) as [->|];
        [apply lookup_delete_eq | rewrite lookup_delete_ne by assumption]
    end;
    destruct (timers w !! h) as [k|] eqn:El; [|reflexivity];
    destruct (H3 _ _ El) as [_ Ho]; destruct k; cbn in Ho; congruence.
Qed.

Lemma Inv_destroy (st : State) : Inv st -> Inv (destroy st).
Proof.
  intros H. destruct (destroy_post st H) as (Ht & _ & Hb & Hc & Hi & _).
  split.
  - rewrite Hi, Hc. reflexivity.
  - rewrite Hb. cbn. lia.
  - intros h k Hl. rewrite Ht, lookup_empty in Hl. discriminate.
  - rewrite Hc. discriminate.
Qed.

Lemma Inv_fire (h : nat) (t0 now : Z) (st : State) : Inv st -> Inv (fire h t0 now st).
Proof.
  intros H. unfold fire.
  destruct (timers (world st) !! h) as [[]|];
    auto using Inv_checkAndGenerateSignal, Inv_countdownTick.
Qed.

Lemma Inv_step (st : State) (ev : Event) : Inv st -> Inv (step st ev).
Proof.
  intros H.
  destruct ev; cbn;
    auto using Inv_initialize, Inv_reload, Inv_updateOutcome, Inv_destroy,
      Inv_onTick, Inv_fire.
  destruct (pendingRetries (world st)) as [|n]; [exact H|].
  apply Inv_retryConnection.
  destruct H as [H1 H2 H3 H6]. split; cbn; auto.
Qed.

Lemma Inv_run (evs : list Event) (st : State) : Inv st -> Inv (run evs st).
Proof.
  revert st. induction evs as [|ev evs IH]; intros st H; cbn; [exact H|].
  apply IH, Inv_step, H.
Qed.

Lemma Inv_reachable (evs : list Event) : Inv (run evs initState).
Proof. apply Inv_run, Inv_initState. Qed.

Example idleDemo_shape :
  currentSignal (eng idleDemo) = None
  /\ length (tickBuffer (eng idleDemo)) = 50%nat
  /\ highCount (tickBuffer (eng idleDemo)) = 31%nat.
Proof. vm_compute. repeat split. Qed.

Example midCountdownDemo_shape :
  option_map remainingSeconds (currentSignal (eng midCountdownDemo)) = Some 45
  /\ option_map expiresAt (currentSignal (eng midCountdownDemo)) = Some 121000.
Proof. vm_compute. repeat split. Qed.

(** ** C1: an active signal blocks the detection poll *)

(** In every reachable state the id set holds exactly the id of the active
    Signal, and nothing when the engine is idle; so it holds at most one
    id. *)
Lemma at_most_one_active_id (evs : list Event) :
  let st := run evs initState in
  activeSignalIds (eng st)
  = match currentSignal (eng st) with Some s => {[ id s ]} | None => ∅ end
  /\ (currentSignal (eng st) = None -> activeSignalIds (eng st) = ∅)
  /\ (forall s, currentSignal (eng st) = Some s ->
        forall i, i ∈ activeSignalIds (eng st) <-> i = id s)
  /\ (size (activeSignalIds (eng st)) <= 1)%nat.
Proof.
  cbv zeta. destruct (Inv_reachable evs) as [H _ _ _].
  split; [exact H|]. rewrite H.
  split; [intros ->; reflexivity|]. split.
  - intros s ->. intros i. apply elem_of_singleton.
  - destruct (currentSignal _).
    + rewrite size_singleton. lia.
    + rewrite size_empty. lia.
Qed.

(** C1.  While a Signal is active, checkAndGenerateSignal is a no-op: for
    every state whose active-Signal slot is filled and every sequence of
    detection-poll firings (with arbitrary clock readings), the run of the
    polls returns the very same state; no Signal is created, the active
    Signal, the id set, the timers and the notifications are unchanged. *)
Theorem active_signal_blocks_polls (st : State) (sig : SignalData)
    (polls : list (Z * Z)) :
  currentSignal (eng st) = Some sig ->
  runPolls polls st = st.
Proof.
  intros Hact. unfold runPolls.
  induction polls as [|[t0 now] polls IH]; cbn [fold_left]; [reflexivity|].
  unfold checkAndGenerateSignal at 2. cbn [fst snd]. rewrite Hact. exact IH.
Qed.

Lemma active_signal_blocks_polls_witness :
  runPolls [(6000, 6000); (11000, 11001); (16000, 16000)] activeDemo = activeDemo.
Proof.
  eapply active_signal_blocks_polls.
  cbv. reflexivity.
Defined.

(** ** C3: fewer than 50 ticks *)

Lemma determineBias_neutral (op up : number) :
  fst (determineBias op up) = NEUTRAL -> snd (determineBias op up) = ofZ 50.
Proof.
  unfold determineBias.
  destruct (gtb op (ofZ 60)); [discriminate|].
  destruct (gtb up (ofZ 60)); [discriminate|]. reflexivity.
Qed.

(** C3 as stated fails: the snapshot of the empty buffer is neutral with
    score 50, not 0, and the snapshot of a buffer with a single high tick is
    not even neutral (bias UNDER, score 95). *)
Lemma short_buffer_snapshot_counterexample :
  (length (@nil TickData) < MIN_TICKS_FOR_ANALYSIS)%nat
  /\ bias (analyzeDistribution []) = NEUTRAL
  /\ confidenceScore (analyzeDistribution []) = ofZ 50
  /\ confidenceScore (analyzeDistribution []) <> ofZ 0
  /\ (length [highTick] < MIN_TICKS_FOR_ANALYSIS)%nat
  /\ bias (analyzeDistribution [highTick]) = UNDER
  /\ confidenceScore (analyzeDistribution [highTick]) = ofZ 95.
Proof.
  vm_compute. repeat split; try lia; try discriminate.
Qed.

(** C3 (amended).  For every state whose buffer holds fewer than 50 ticks,
    the detection poll returns before the analysis runs: it produces no
    snapshot, creates no Signal and leaves the whole state (engine, timers,
    notifications) unchanged, which is not an error.  The analysis has no
    minimum-size guard of its own; whenever its snapshot is neutral the
    score is 50. *)
Theorem short_buffer_poll_is_noop (st : State) (t0 now : Z) :
  (length (tickBuffer (eng st)) < MIN_TICKS_FOR_ANALYSIS)%nat ->
  checkAndGenerateSignal t0 now st = st
  /\ (bias (analyzeDistribution (tickBuffer (eng st))) = NEUTRAL ->
      confidenceScore (analyzeDistribution (tickBuffer (eng st))) = ofZ 50).
Proof.
  intros Hshort. split.
  - unfold checkAndGenerateSignal.
    destruct (currentSignal (eng st)); [reflexivity|].
    destruct (decide _) as [_|Hge]; [reflexivity|contradiction].
  - rewrite analyzeDistribution_window.
    cbn [bias confidenceScore]. apply determineBias_neutral.
Qed.

(** 49 ticks ingested, then the poll fires. *)
Lemma short_buffer_poll_is_noop_witness :
  let st := ingest (repeat highTick 49) initState in
  checkAndGenerateSignal 5000 5000 st = st
  /\ (bias (analyzeDistribution (tickBuffer (eng st))) = NEUTRAL ->
      confidenceScore (analyzeDistribution (tickBuffer (eng st))) = ofZ 50).
Proof.
  apply (short_buffer_poll_is_noop (ingest (repeat highTick 49) initState) 5000 5000).
  vm_compute. lia.
Defined.

(** ** C4: the bounded FIFO buffer *)

Lemma pushTick_below (buf : list TickData) (t : TickData) :
  (length buf < TICK_BUFFER_SIZE)%nat -> pushTick buf t = buf ++ [t].
Proof.
  intros H. unfold pushTick.
  destruct (decide _) as [Hgt|_]; [|reflexivity].
  rewrite length_app in Hgt. cbn in Hgt. lia.
Qed.

Lemma pushTick_full (buf : list TickData) (t : TickData) :
  length buf = TICK_BUFFER_SIZE -> pushTick buf t = drop 1 buf ++ [t].
Proof.
  intros H. unfold pushTick.
  destruct (decide _) as [_|Hle].
  - destruct buf; [discriminate H|reflexivity].
  - rewrite length_app in Hle. cbn in Hle. lia.
Qed.

Lemma tickBuffer_ingest (ticks : list TickData) (st : State) :
  tickBuffer (eng (ingest ticks st)) = fold_left pushTick ticks (tickBuffer (eng st)).
Proof.
  revert st. induction ticks as [|t ticks IH]; intros st; [reflexivity|].
  cbn [ingest fold_left]. fold (ingest ticks (handleTickData t st)).
  rewrite IH. reflexivity.
Qed.

(** Pushing onto the last 100 of [seen] gives the last 100 of [seen ++ [t]]. *)
Lemma pushTick_slice_last (seen : list TickData) (t : TickData) :
  pushTick (slice_last TICK_BUFFER_SIZE seen) t
  = slice_last TICK_BUFFER_SIZE (seen ++ [t]).
Proof.
  destruct (decide (length seen < TICK_BUFFER_SIZE)%nat) as [Hlt|Hge].
  - unfold slice_last. rewrite length_app. cbn [length].
    replace (length seen - TICK_BUFFER_SIZE)%nat with 0%nat by lia.
    replace (length seen + 1 - TICK_BUFFER_SIZE)%nat with 0%nat by lia.
    cbn [drop]. apply pushTick_below. assumption.
  - rewrite pushTick_full by (rewrite length_slice_last; lia).
    unfold slice_last. rewrite length_app. cbn [length].
    rewrite drop_drop.
    replace (length seen + 1 - TICK_BUFFER_SIZE)%nat
      with (length seen - TICK_BUFFER_SIZE + 1)%nat by lia.
    rewrite drop_app_le by (unfold TICK_BUFFER_SIZE in *; lia). reflexivity.
Qed.

Lemma fold_pushTick_slice_last (ticks seen : list TickData) :
  fold_left pushTick ticks (slice_last TICK_BUFFER_SIZE seen)
  = slice_last TICK_BUFFER_SIZE (seen ++ ticks).
Proof.
  revert seen. induction ticks as [|t ticks IH]; intros seen; cbn [fold_left].
  - rewrite app_nil_r. reflexivity.
  - rewrite pushTick_slice_last, IH, <- app_assoc. reflexivity.
Qed.

(** C4.  Whatever happens to the engine (any run of events from the initial
    state), its buffer never holds more than 100 ticks; an ingest into a
    buffer below capacity appends, and an ingest into a full buffer drops
    exactly the oldest tick and appends the new one behind the others, whose
    order is kept.  Ingesting any sequence of ticks into the fresh engine
    leaves exactly its last 100 ticks, in arrival order. *)
Theorem tick_buffer_bounded_fifo (evs : list Event) (ticks : list TickData)
    (t : TickData) :
  let st := run evs initState in
  let buf := tickBuffer (eng st) in
  (length buf <= 100)%nat
  /\ tickBuffer (eng (handleTickData t st))
     = (if decide (length buf = 100%nat) then drop 1 buf ++ [t] else buf ++ [t])
  /\ (length (tickBuffer (eng (handleTickData t st))) <= 100)%nat
  /\ tickBuffer (eng (ingest ticks initState)) = drop (length ticks - 100) ticks.
Proof.
  cbv zeta.
  pose proof (Inv_reachable evs) as Hinv.
  pose proof (inv_buf _ Hinv) as Hlen.
  pose proof (inv_buf _ (Inv_handleTickData t _ Hinv)) as Hlen'.
  unfold TICK_BUFFER_SIZE in *.
  repeat split; try assumption.
  - cbn. destruct (decide _) as [Hfull|Hnot].
    + apply pushTick_full. exact Hfull.
    + apply pushTick_below. unfold TICK_BUFFER_SIZE. lia.
  - rewrite tickBuffer_ingest.
    apply (fold_pushTick_slice_last ticks []).
Qed.

(** ** The Idle -> Active transition *)

Lemma window_exact (buf : list TickData) :
  length buf = MIN_TICKS_FOR_ANALYSIS -> window buf = buf.
Proof.
  intros H. unfold window, slice_last. rewrite H, Nat.sub_diag. reflexivity.
Qed.

(** generateSignal from an idle state that satisfies the invariant. *)
Lemma generateSignal_idle (a : DistributionAnalysis) (t0 now : Z) (st : State) :
  Inv st ->
  currentSignal (eng st) = None ->
  let st' := generateSignal a t0 now st in
  let signal := newSignal a (signalIdOf t0) now in
  currentSignal (eng st') = Some signal
  /\ activeSignalIds (eng st') = {[ id signal ]}
  /\ signalUpdates (world st')
     = signalUpdates (world st) ++ (if onSignalUpdate (eng st) then [Some signal] else [])
  /\ countdownInterval (eng st') = Some (nextTimer (world st))
  /\ timers (world st') !! nextTimer (world st) = Some CountdownTimer
  /\ tickBuffer (eng st') = tickBuffer (eng st).
Proof.
  intros Hinv Hidle. cbv zeta.
  pose proof (inv_ids _ Hinv) as Hids. rewrite Hidle in Hids.
  unfold generateSignal. rewrite Hids.
  destruct (decide _) as [Hin|_]; [apply not_elem_of_empty in Hin; contradiction|].
  destruct st as [e w]. cbn in *. unfold notifyUI, startCountdown. cbn.
  destruct (onSignalUpdate e); cbn; destruct (countdownInterval e); cbn;
    rewrite ?lookup_insert_eq, ?app_nil_r, ?Hids, ?(left_id_L ∅ (∪)); repeat split.
Qed.

(** The poll in an idle state with a full window and a non-neutral snapshot
    passes both gates. *)
Lemma checkAndGenerateSignal_fires (t0 now : Z) (st : State) :
  currentSignal (eng st) = None ->
  (MIN_TICKS_FOR_ANALYSIS <= length (tickBuffer (eng st)))%nat ->
  bias (analyzeDistribution (tickBuffer (eng st))) <> NEUTRAL ->
  geb (confidenceScore (analyzeDistribution (tickBuffer (eng st)))) (ofZ 67) = true
  /\ ltb (confidenceScore (analyzeDistribution (tickBuffer (eng st)))) CONFIDENCE_THRESHOLD = false
  /\ checkAndGenerateSignal t0 now st
     = generateSignal (analyzeDistribution (tickBuffer (eng st))) t0 now st.
Proof.
  intros Hidle Hlen Hbias.
  destruct (analysis_of_full_buffer _ Hlen) as (Hh & _ & _ & _ & _ & Hd).
  assert (Hk : (highCount (window (tickBuffer (eng st))) <= 50)%nat) by lia.
  destruct (decision_table _ Hk) as (_ & _ & Hgate & _).
  rewrite <- Hd in Hgate. cbn [fst snd] in Hgate.
  destruct (Hgate Hbias) as (H67 & _ & H65).
  repeat split; try assumption.
  unfold checkAndGenerateSignal. rewrite Hidle.
  destruct (decide _) as [Hlt|_]; [lia|].
  rewrite H65.
  destruct (decide _) as [_|Hneutral]; [reflexivity|contradiction].
Qed.

(** ** C5: 31 high ticks out of 50 *)

(** C5 as stated fails.  On the buffer of the scenario (exactly 50 ticks,
    31 high and 19 low, engine idle) the bias of the Analyzer's snapshot is
    not HIGH (the tag OVER of the dominant digits 5-9): it is already UNDER,
    the low side, and the Signal the Controller emits carries that bias
    unchanged, so its classification is not the reverse of the bias. *)
Lemma scenario_bias_is_high_counterexample :
  currentSignal (eng idleDemo) = None
  /\ length (tickBuffer (eng idleDemo)) = 50%nat
  /\ highCount (tickBuffer (eng idleDemo)) = 31%nat
  /\ lowCount (tickBuffer (eng idleDemo)) = 19%nat
  /\ bias (analyzeDistribution (tickBuffer (eng idleDemo))) = UNDER
  /\ bias (analyzeDistribution (tickBuffer (eng idleDemo))) <> OVER
  /\ option_map type (currentSignal (eng (checkAndGenerateSignal 1000 1000 idleDemo)))
     = Some (bias (analyzeDistribution (tickBuffer (eng idleDemo)))).
Proof. vm_compute. repeat split. discriminate. Qed.

(** C5 (amended).  In every reachable idle state whose buffer holds exactly
    50 ticks, 31 of them classified high (62%) and so 19 low, the snapshot
    counts 31 and 19, has over-percentage 62, bias UNDER (the Analyzer
    itself reports the low side, the mean reversion of the dominant high
    side) and confidence score 67, and the detection poll emits a Signal
    whose classification is that bias unchanged, UNDER, with confidence 67,
    created at the poll's clock reading and expiring 120 seconds
    (120000 ms) later, with 120 seconds remaining; the Signal is handed to
    the UI callback. *)
Theorem scenario_31_high_of_50 (evs : list Event) (t0 now : Z) :
  let st := run evs initState in
  let a := analyzeDistribution (tickBuffer (eng st)) in
  let st' := checkAndGenerateSignal t0 now st in
  currentSignal (eng st) = None ->
  length (tickBuffer (eng st)) = 50%nat ->
  highCount (tickBuffer (eng st)) = 31%nat ->
  lowCount (tickBuffer (eng st)) = 19%nat
  /\ overCount a = 31 /\ underCount a = 19
  /\ overPercentage a = ofZ 62
  /\ bias a = UNDER
  /\ confidenceScore a = ofZ 67
  /\ exists sig,
       currentSignal (eng st') = Some sig
       /\ type sig = UNDER
       /\ type sig = bias a
       /\ confidence sig = ofZ 67
       /\ createdAt sig = now
       /\ expiresAt sig = createdAt sig + 120 * 1000
       /\ remainingSeconds sig = 120
       /\ (onSignalUpdate (eng st) = true ->
           signalUpdates (world st') = signalUpdates (world st) ++ [Some sig]).
Proof.
  cbv zeta. intros Hidle Hlen Hhigh.
  set (st := run evs initState) in *.
  pose proof (Inv_reachable evs) as Hinv. fold st in Hinv.
  assert (Hfull : (MIN_TICKS_FOR_ANALYSIS <= length (tickBuffer (eng st)))%nat)
    by (rewrite Hlen; reflexivity).
  destruct (analysis_of_full_buffer _ Hfull) as (_ & Ho & Hu & Hop & _ & Hd).
  rewrite (window_exact _ Hlen), Hhigh in Ho, Hu, Hop, Hd.
  change (decisionAt50 (Z.of_nat 31)) with (UNDER, ofZ 67) in Hd.
  change (percentage (Z.of_nat 31) 50) with (ofZ 62) in Hop.
  pose proof (f_equal fst Hd) as Hb. pose proof (f_equal snd Hd) as Hc.
  cbn [fst snd] in Hb, Hc.
  pose proof (highCount_lowCount (tickBuffer (eng st))) as Hsum.
  assert (Hne : bias (analyzeDistribution (tickBuffer (eng st))) <> NEUTRAL)
    by (rewrite Hb; discriminate).
  destruct (checkAndGenerateSignal_fires t0 now st Hidle Hfull Hne) as (_ & _ & Hfire).
  destruct (generateSignal_idle (analyzeDistribution (tickBuffer (eng st))) t0 now st
              Hinv Hidle) as (Hcur & _ & Hupd & _).
  rewrite Hfire.
  repeat split; try assumption; try lia.
  eexists. split; [exact Hcur|].
  unfold newSignal; cbn [type confidence createdAt expiresAt remainingSeconds].
  rewrite Hb, Hc.
  repeat split.
  intros Hcb. rewrite Hupd, Hcb. unfold newSignal. rewrite Hb, Hc. reflexivity.
Qed.

Lemma scenario_31_high_of_50_witness :
  bias (analyzeDistribution (tickBuffer (eng idleDemo))) = UNDER
  /\ exists sig,
       currentSignal (eng (checkAndGenerateSignal 1000 1000 idleDemo)) = Some sig
       /\ type sig = UNDER
       /\ type sig = bias (analyzeDistribution (tickBuffer (eng idleDemo)))
       /\ confidence sig = ofZ 67
       /\ expiresAt sig = createdAt sig + 120 * 1000.
Proof.
  destruct (scenario_31_high_of_50
              idleEvents 1000 1000)
    as (_ & _ & _ & _ & Hb & _ & sig & Hcur & Hty & Htb & Hconf & _ & Hexp & _).
  - vm_compute. reflexivity.
  - vm_compute. reflexivity.
  - vm_compute. reflexivity.
  - split; [exact Hb|]. exists sig. repeat split; assumption.
Defined.

(** ** C10: a non-neutral snapshot of a full window always passes the gate *)

(** C10.  In every reachable state whose buffer holds at least 50 ticks (so
    that the analysed window has exactly 50), a snapshot whose bias is not
    NEUTRAL has a confidence score of at least 67, strictly above the
    threshold 65, so the confidence gate of the poll does not block it; and
    if the engine is idle the poll creates the Signal built from that
    snapshot. *)
Theorem nonneutral_snapshot_passes_gate (evs : list Event) (t0 now : Z) :
  let st := run evs initState in
  let a := analyzeDistribution (tickBuffer (eng st)) in
  (50 <= length (tickBuffer (eng st)))%nat ->
  bias a <> NEUTRAL ->
  length (recentTicks a) = 50%nat
  /\ geb (confidenceScore a) (ofZ 67) = true
  /\ gtb (confidenceScore a) CONFIDENCE_THRESHOLD = true
  /\ ltb (confidenceScore a) CONFIDENCE_THRESHOLD = false
  /\ (currentSignal (eng st) = None ->
      currentSignal (eng (checkAndGenerateSignal t0 now st))
      = Some (newSignal a (signalIdOf t0) now)).
Proof.
  cbv zeta. intros Hlen Hbias.
  set (st := run evs initState) in *.
  pose proof (Inv_reachable evs) as Hinv. fold st in Hinv.
  destruct (analysis_of_full_buffer _ Hlen) as (Hh & _ & _ & _ & _ & Hd).
  assert (Hk : (highCount (window (tickBuffer (eng st))) <= 50)%nat) by lia.
  destruct (decision_table _ Hk) as (_ & _ & Hgate & _).
  rewrite <- Hd in Hgate. cbn [fst snd] in Hgate.
  destruct (Hgate Hbias) as (H67 & Hgt & H65).
  repeat split; try assumption.
  - rewrite analyzeDistribution_window. cbn [recentTicks].
    rewrite length_map. apply length_window. exact Hlen.
  - intros Hidle.
    destruct (checkAndGenerateSignal_fires t0 now st Hidle Hlen Hbias) as (_ & _ & Hfire).
    rewrite Hfire.
    apply (generateSignal_idle _ t0 now st Hinv Hidle).
Qed.

Lemma nonneutral_snapshot_passes_gate_witness :
  geb (confidenceScore (analyzeDistribution (tickBuffer (eng idleDemo)))) (ofZ 67) = true
  /\ currentSignal (eng (checkAndGenerateSignal 1000 1000 idleDemo))
     = Some (newSignal (analyzeDistribution (tickBuffer (eng idleDemo)))
               (signalIdOf 1000) 1000).
Proof.
  destruct (nonneutral_snapshot_passes_gate
              idleEvents 1000 1000)
    as (_ & H67 & _ & _ & Hfire).
  - vm_compute. lia.
  - vm_compute. discriminate.
  - split; [exact H67|]. apply Hfire. vm_compute. reflexivity.
Defined.

(** ** C7: the analysis reads the last 50 ticks only *)

Lemma analyzeDistribution_depends_on_window (b1 b2 : list TickData) :
  window b1 = window b2 -> analyzeDistribution b1 = analyzeDistribution b2.
Proof.
  intros H. rewrite !analyzeDistribution_window. cbv zeta. rewrite H. reflexivity.
Qed.

(** C7 as stated fails on a buffer of 51 ticks, one low tick followed by 50
    high ticks: the counts add up to 50, not 51, and the oldest tick (the
    only low one) is not counted. *)
Lemma counts_cover_window_only_counterexample :
  let buf := lowTick :: repeat highTick 50 in
  let a := analyzeDistribution buf in
  (50 <= length buf)%nat
  /\ Z.of_nat (length buf) = 51
  /\ overCount a + underCount a = 50
  /\ isHigh lowTick = false
  /\ underCount a = 0.
Proof. vm_compute. repeat split. lia. Qed.

(** C7 (amended).  For every buffer holding at least 50 ticks, the analysis
    classifies every tick of its window, the 50 most recent ticks, as high
    or low: the high count and the low count are the numbers of high and low
    ticks of the window and add up to 50, which is the buffer's length only
    when the buffer holds exactly 50; older ticks do not contribute, the
    snapshot being the same whatever precedes the window. *)
Theorem counts_cover_window (buf : list TickData) :
  (50 <= length buf)%nat ->
  let a := analyzeDistribution buf in
  window buf = drop (length buf - 50) buf
  /\ length (recentTicks a) = 50%nat
  /\ overCount a = Z.of_nat (highCount (window buf))
  /\ underCount a = Z.of_nat (lowCount (window buf))
  /\ overCount a + underCount a = 50
  /\ (length buf = 50%nat -> overCount a + underCount a = Z.of_nat (length buf))
  /\ (forall older, analyzeDistribution (older ++ window buf) = a).
Proof.
  intros Hlen. cbv zeta.
  destruct (analysis_of_full_buffer _ Hlen) as (Hh & Ho & Hu & _).
  pose proof (length_window buf Hlen) as Hw.
  pose proof (highCount_lowCount (window buf)) as Hsum.
  rewrite Hw in Hsum. unfold MIN_TICKS_FOR_ANALYSIS in *.
  assert (Hrecent : length (recentTicks (analyzeDistribution buf)) = 50%nat).
  { rewrite analyzeDistribution_window. cbn [recentTicks].
    rewrite length_map. exact Hw. }
  assert (Holder : forall older,
            analyzeDistribution (older ++ window buf) = analyzeDistribution buf).
  { intros older. apply analyzeDistribution_depends_on_window.
    unfold window at 1. rewrite slice_last_app by exact Hw.
    reflexivity. }
  repeat split; try assumption; try lia; reflexivity.
Qed.

Lemma counts_cover_window_witness :
  let buf := lowTick :: repeat highTick 50 in
  overCount (analyzeDistribution buf) + underCount (analyzeDistribution buf) = 50
  /\ analyzeDistribution (repeat lowTick 7 ++ window buf) = analyzeDistribution buf.
Proof.
  cbv zeta.
  destruct (counts_cover_window (lowTick :: repeat highTick 50))
    as (_ & _ & _ & _ & Hsum & _ & Hold).
  - vm_compute. lia.
  - split; [exact Hsum|apply Hold].
Defined.

(** ** The dominant side and the Signal's classification *)

(** On a window of 50 the share of high ticks is never exactly 61%: the
    over-percentage the Analyzer computes is never 61, and 61% of 50 is not
    a whole count. *)
Theorem window_of_50_is_never_61_percent_high (buf : list TickData) :
  (50 <= length buf)%nat ->
  let a := analyzeDistribution buf in
  length (recentTicks a) = 50%nat
  /\ overPercentage a <> ofZ 61
  /\ 100 * overCount a <> 61 * 50.
Proof.
  intros Hlen. cbv zeta.
  destruct (analysis_of_full_buffer _ Hlen) as (Hh & Ho & _ & Hop & _).
  assert (Hk : (highCount (window buf) <= 50)%nat) by lia.
  destruct (decision_table _ Hk) as (_ & H61 & _).
  split; [|split].
  - rewrite analyzeDistribution_window. cbn [recentTicks].
    rewrite length_map. apply length_window. exact Hlen.
  - rewrite Hop. exact H61.
  - rewrite Ho. lia.
Qed.

Lemma window_of_50_is_never_61_percent_high_witness :
  overPercentage (analyzeDistribution (tickBuffer (eng idleDemo))) <> ofZ 61.
Proof.
  apply (window_of_50_is_never_61_percent_high (tickBuffer (eng idleDemo))).
  vm_compute. lia.
Defined.

(** In every reachable idle state whose buffer holds at least 50 ticks with
    high ticks dominant in the window (more than 60%, that is 31 or more of
    50), the Analyzer itself reports the opposite side as its bias (bias =
    UNDER, mean reversion) with confidence the over-percentage plus 5
    capped at 95, and the Controller copies that bias unchanged into the
    Signal's classification.  The over-percentage is twice the high count,
    so it is never 61 on a window of 50; at a percentage of 61 the
    Analyzer's bias rule gives UNDER with confidence 66. *)
Theorem analyzer_reports_reversion_side (evs : list Event) (t0 now : Z) :
  let st := run evs initState in
  let a := analyzeDistribution (tickBuffer (eng st)) in
  let h := Z.of_nat (highCount (window (tickBuffer (eng st)))) in
  currentSignal (eng st) = None ->
  (50 <= length (tickBuffer (eng st)))%nat ->
  31 <= h ->
  bias a = UNDER
  /\ overPercentage a = ofZ (2 * h)
  /\ overPercentage a <> ofZ 61
  /\ confidenceScore a = ofZ (Z.min 95 (2 * h + 5))
  /\ (exists sig,
        currentSignal (eng (checkAndGenerateSignal t0 now st)) = Some sig
        /\ type sig = bias a)
  /\ determineBias (ofZ 61) (ofZ 39) = (UNDER, ofZ 66).
Proof.
  cbv zeta. intros Hidle Hlen Hdom.
  set (st := run evs initState) in *.
  pose proof (Inv_reachable evs) as Hinv. fold st in Hinv.
  destruct (analysis_of_full_buffer _ Hlen) as (Hh & _ & _ & Hop & _ & Hd).
  assert (Hk : (highCount (window (tickBuffer (eng st))) <= 50)%nat) by lia.
  destruct (decision_table _ Hk) as (_ & H61 & _ & Hexact).
  assert (Hdec : decisionAt50 (Z.of_nat (highCount (window (tickBuffer (eng st)))))
                 = (UNDER, ofZ (Z.min 95
                     (2 * Z.of_nat (highCount (window (tickBuffer (eng st)))) + 5)))).
  { unfold decisionAt50. destruct (31 <=? _) eqn:E; [reflexivity|lia]. }
  rewrite Hdec in Hd.
  pose proof (f_equal fst Hd) as Hb. pose proof (f_equal snd Hd) as Hc.
  cbn [fst snd] in Hb, Hc.
  assert (Hne : bias (analyzeDistribution (tickBuffer (eng st))) <> NEUTRAL)
    by (rewrite Hb; discriminate).
  destruct (checkAndGenerateSignal_fires t0 now st Hidle Hlen Hne) as (_ & _ & Hfire).
  destruct (generateSignal_idle (analyzeDistribution (tickBuffer (eng st))) t0 now st
              Hinv Hidle) as (Hcur & _).
  repeat split.
  - exact Hb.
  - rewrite Hop. apply Hexact. lia.
  - rewrite Hop. exact H61.
  - exact Hc.
  - eexists. rewrite Hfire. split; [exact Hcur|reflexivity].
Qed.

Lemma analyzer_reports_reversion_side_witness :
  bias (analyzeDistribution (tickBuffer (eng idleDemo))) = UNDER
  /\ confidenceScore (analyzeDistribution (tickBuffer (eng idleDemo))) = ofZ 67
  /\ exists sig,
       currentSignal (eng (checkAndGenerateSignal 1000 1000 idleDemo)) = Some sig
       /\ type sig = bias (analyzeDistribution (tickBuffer (eng idleDemo))).
Proof.
  destruct (analyzer_reports_reversion_side
              idleEvents 1000 1000)
    as (Hb & _ & _ & Hc & Hsig & _).
  - vm_compute. reflexivity.
  - vm_compute. lia.
  - vm_compute. discriminate.
  - split; [exact Hb|]. split; [|exact Hsig].
    etransitivity; [exact Hc|]. vm_compute. reflexivity.
Defined.

(** ** C6: destroy *)

Lemma clearCurrentSignal_post (st : State) (sig : SignalData) :
  currentSignal (eng st) = Some sig ->
  let st' := clearCurrentSignal st in
  currentSignal (eng st') = None
  /\ countdownInterval (eng st') = None
  /\ activeSignalIds (eng st') = activeSignalIds (eng st) ∖ {[ id sig ]}
  /\ signalUpdates (world st')
     = signalUpdates (world st) ++ (if onSignalUpdate (eng st) then [None] else [])
  /\ tickBuffer (eng st') = tickBuffer (eng st).
Proof.
  intros Hcur. cbv zeta. unfold clearCurrentSignal. rewrite Hcur.
  destruct st as [e w]. unfold notifyUI. cbn.
  destruct (countdownInterval e) eqn:Ec; cbn; destruct (onSignalUpdate e); cbn;
    rewrite ?app_nil_r; repeat split; assumption.
Qed.

(** C6 as stated fails in its last part.  Stopping the demo engine in the
    middle of the countdown (45 seconds remaining, callback registered)
    empties the slot but calls the UI callback not at all: the list of
    notifications is unchanged and its last entry is still the Signal with
    45 seconds remaining, not the null Signal. *)
Lemma destroy_sends_no_notification_counterexample :
  option_map remainingSeconds (currentSignal (eng midCountdownDemo)) = Some 45
  /\ onSignalUpdate (eng midCountdownDemo) = true
  /\ currentSignal (eng (destroy midCountdownDemo)) = None
  /\ signalUpdates (world (destroy midCountdownDemo))
     = signalUpdates (world midCountdownDemo)
  /\ last (signalUpdates (world (destroy midCountdownDemo)))
     = Some (currentSignal (eng midCountdownDemo))
  /\ last (signalUpdates (world (destroy midCountdownDemo))) <> Some None.
Proof. vm_compute. repeat split. discriminate. Qed.

(** C6 (amended).  In every reachable state, with or without an active
    Signal, destroy synchronously cancels every live interval timer (the
    detection poll and the countdown), releases the upstream subscription
    the engine holds, empties the Buffer and the id set, resets the
    active-Signal slot and the stored handles to empty and marks the engine
    uninitialised; afterwards no interval firing and no pending reconnection
    retry changes anything.  It does not notify the UI: the list of
    notifications is unchanged.  The null Signal is sent by
    clearCurrentSignal only, that is on expiry and on reload. *)
Theorem destroy_releases_everything (evs : list Event) (cfg : NumericSignalConfig) :
  let st := run evs initState in
  let st' := destroy st in
  timers (world st') = ∅
  /\ subscriptions (world st')
     = match unsubscribe (eng st) with
       | Some sid => subscriptions (world st) ∖ {[ sid ]}
       | None => subscriptions (world st)
       end
  /\ (forall sid, unsubscribe (eng st) = Some sid -> sid ∉ subscriptions (world st'))
  /\ tickBuffer (eng st') = []
  /\ currentSignal (eng st') = None
  /\ activeSignalIds (eng st') = ∅
  /\ unsubscribe (eng st') = None
  /\ countdownInterval (eng st') = None
  /\ signalGenerationInterval (eng st') = None
  /\ isInitialized (eng st') = false
  /\ (forall h t0 now, fire h t0 now st' = st')
  /\ (forall conn, retryConnection conn st' = st')
  /\ signalUpdates (world st') = signalUpdates (world st)
  /\ (forall sig, currentSignal (eng st) = Some sig ->
        onSignalUpdate (eng st) = true ->
        signalUpdates (world (reload cfg st)) = signalUpdates (world st) ++ [None]).
Proof.
  cbv zeta. pose proof (Inv_reachable evs) as Hinv.
  destruct (destroy_post _ Hinv)
    as (Ht & Hs & Hb & Hc & Hi & Hu & Hci & Hsi & Hin & _ & Hn & _).
  split; [exact Ht|]. split; [exact Hs|]. split.
  { intros sid Hsid. rewrite Hs, Hsid.
    apply not_elem_of_difference. right. apply elem_of_singleton. reflexivity. }
  do 7 (split; [assumption|]).
  split; [|split; [|split; [exact Hn|]]].
  - intros h t0 now. unfold fire. rewrite Ht, lookup_empty. reflexivity.
  - intros conn. unfold retryConnection. rewrite Hin. reflexivity.
  - intros sig Hcur Hcb. unfold reload.
    destruct (clearCurrentSignal_post
                (upd (fun e => set_config e (Some cfg)) (run evs initState)) sig Hcur)
      as (_ & _ & _ & Hupd & _).
    rewrite Hupd. cbn. rewrite Hcb. reflexivity.
Qed.

(** ** C8: the countdown *)

(** C8 as stated fails: the countdown reaches 0, and the Signal is cleared,
    before the expiry time.  The demo Signal expires at 121000; the tick at
    120500 computes 0 seconds and returns the engine to Idle. *)
Lemma countdown_reaches_zero_early_counterexample :
  option_map expiresAt (currentSignal (eng activeDemo)) = Some 121000
  /\ 120500 < 121000
  /\ option_map (fun sig => remainingAt sig 120500) (currentSignal (eng activeDemo))
     = Some 0
  /\ currentSignal (eng (countdownTick 120500 activeDemo)) = None.
Proof. vm_compute. repeat split. Qed.

Lemma remainingAt_zero_iff (sig : SignalData) (now : Z) :
  remainingAt sig now = 0 <-> expiresAt sig - 1000 < now.
Proof.
  unfold remainingAt. cbv zeta.
  pose proof (Z.div_pos (expiresAt sig - now) 1000).
  pose proof (Z.div_lt_upper_bound (expiresAt sig - now) 1000 1).
  pose proof (Z.div_le_lower_bound (expiresAt sig - now) 1000 1).
  lia.
Qed.

Lemma remainingAt_antitone (sig : SignalData) (now now' : Z) :
  now <= now' -> remainingAt sig now' <= remainingAt sig now.
Proof.
  intros H. unfold remainingAt. cbv zeta.
  pose proof (Z.div_le_mono (expiresAt sig - now') (expiresAt sig - now) 1000).
  lia.
Qed.

(** C8 (amended).  While a Signal is Active in a reachable state, the
    remaining-time a countdown tick computes is never negative, is at most
    120 from the creation time on, and is non-increasing in the clock
    reading; a later tick computes from the same expiry.  It is 0 exactly
    when less than one full second is left (expiry - now < 1000 ms), hence
    at every tick at or after the expiry time but also up to 999 ms before
    it.  A tick that computes a positive value stores and publishes it and
    the Signal stays Active; a tick that computes 0 publishes the Signal
    with 0 remaining, then clears it: the engine is Idle and the null
    Signal is published. *)
Theorem countdown_remaining_time (evs : list Event) (sig : SignalData)
    (now now' : Z) :
  let st := run evs initState in
  let r := remainingAt sig now in
  let st' := countdownTick now st in
  currentSignal (eng st) = Some sig ->
  now <= now' ->
  0 <= r
  /\ (createdAt sig <= now -> r <= 120)
  /\ remainingAt sig now' <= r
  /\ remainingAt (withRemaining sig r) now' = remainingAt sig now'
  /\ (r = 0 <-> expiresAt sig - 1000 < now)
  /\ (expiresAt sig <= now -> r = 0)
  /\ (0 < r ->
        currentSignal (eng st') = Some (withRemaining sig r)
        /\ signalUpdates (world st')
           = signalUpdates (world st)
             ++ (if onSignalUpdate (eng st) then [Some (withRemaining sig r)] else []))
  /\ (r = 0 ->
        currentSignal (eng st') = None
        /\ signalUpdates (world st')
           = signalUpdates (world st)
             ++ (if onSignalUpdate (eng st)
                 then [Some (withRemaining sig 0); None] else [])).
Proof.
  cbv zeta. intros Hcur Hle.
  set (st := run evs initState) in *.
  pose proof (Inv_reachable evs) as Hinv. fold st in Hinv.
  pose proof (inv_sig _ Hinv sig Hcur) as Hexp.
  pose proof (remainingAt_zero_iff sig now) as Hzero.
  pose proof (remainingAt_antitone sig now now' Hle) as Hmono.
  assert (Hnonneg : 0 <= remainingAt sig now) by (unfold remainingAt; lia).
  repeat split.
  - exact Hnonneg.
  - intros Hcreated. unfold remainingAt. cbv zeta. rewrite Hexp.
    unfold SIGNAL_DURATION.
    pose proof (Z.div_le_upper_bound (createdAt sig + 120 * 1000 - now) 1000 120).
    lia.
  - exact Hmono.
  - apply Hzero.
  - apply Hzero.
  - intros Hpast. apply Hzero. lia.
  - unfold countdownTick. rewrite Hcur. cbv zeta.
    destruct (Z.leb_spec (remainingAt sig now) 0) as [Hz|_]; [lia|].
    destruct st as [e w]. unfold notifyUI. cbn. destruct (onSignalUpdate e); reflexivity.
  - unfold countdownTick. rewrite Hcur. cbv zeta.
    destruct (Z.leb_spec (remainingAt sig now) 0) as [Hz|_]; [lia|].
    destruct st as [e w]. unfold notifyUI. cbn. destruct (onSignalUpdate e);
      cbn; rewrite ?app_nil_r; reflexivity.
  - rename H into Hr. unfold countdownTick. rewrite Hcur. cbv zeta. rewrite Hr.
    cbn [Z.leb Z.compare].
    match goal with |- currentSignal (eng (clearCurrentSignal ?s)) = None =>
      destruct (clearCurrentSignal_post s (withRemaining sig 0)) as (Hnone & _)
    end.
    + destruct st as [e w]. unfold notifyUI. cbn. destruct (onSignalUpdate e); reflexivity.
    + exact Hnone.
  - rename H into Hr. unfold countdownTick. rewrite Hcur. cbv zeta. rewrite Hr.
    cbn [Z.leb Z.compare].
    match goal with |- signalUpdates (world (clearCurrentSignal ?s)) = _ =>
      destruct (clearCurrentSignal_post s (withRemaining sig 0)) as (_ & _ & _ & Hupd & _)
    end.
    + destruct st as [e w]. unfold notifyUI. cbn. destruct (onSignalUpdate e); reflexivity.
    + rewrite Hupd. destruct st as [e w]. unfold notifyUI. cbn.
      destruct (onSignalUpdate e) eqn:Ecb; cbn; rewrite ?Ecb;
        rewrite <- ?app_assoc, ?app_nil_r; reflexivity.
Qed.

Lemma countdown_remaining_time_witness :
  currentSignal (eng (countdownTick 76000 activeDemo))
  = Some (withRemaining
            (newSignal (analyzeDistribution (tickBuffer (eng idleDemo)))
               (signalIdOf 1000) 1000) 45).
Proof.
  destruct (countdown_remaining_time activeEvents
              (newSignal (analyzeDistribution (tickBuffer (eng idleDemo)))
                 (signalIdOf 1000) 1000) 76000 77000)
    as (_ & _ & _ & _ & _ & _ & Hpos & _).
  - vm_compute. reflexivity.
  - lia.
  - apply Hpos. vm_compute. reflexivity.
Defined.

(** ** C9: what the subscription callback lets through *)

(** C9 as stated fails: a sample whose quote is +Infinity, which is not a
    finite number, passes the callback's test and is appended to the
    Buffer. *)
Lemma infinite_quote_is_appended_counterexample :
  sampleQuote infiniteSample = Some (S754_infinity false)
  /\ isFinite (S754_infinity false) = false
  /\ tickBuffer (eng initState) = []
  /\ tickBuffer (eng (onTick infiniteSample initState))
     = [ {| quote := S754_infinity false; epoch := ofZ 1700000000 |} ].
Proof. vm_compute. repeat split. Qed.

Lemma truthy_finite (x : number) :
  truthy x = true -> isNaN x = false /\ x <> S754_zero false /\ x <> S754_zero true.
Proof. destruct x; cbn; intros H; repeat split; congruence. Qed.

(** C9 (amended).  The subscription callback never raises and touches
    nothing but the Buffer: timers, subscriptions and the notifications seen
    by the UI are unchanged, and so is every other engine field.  A
    delivered sample is dropped, leaving the whole state unchanged, when its
    tick, quote or epoch is missing or when its quote or epoch is falsy
    (zero or NaN); in particular every NaN quote and every zero quote is
    dropped.  It is appended (by handleTickData) when quote and epoch are
    both truthy, whether the quote is finite or infinite; so every appended
    quote is neither NaN nor zero. *)
Theorem onTick_filters_falsy_samples (d : option Raw.Message) (st : State) :
  let st' := onTick d st in
  world st' = world st
  /\ eng st' = set_tickBuffer (eng st) (tickBuffer (eng st'))
  /\ (truthyField (sampleQuote d) && truthyField (sampleEpoch d) = false -> st' = st)
  /\ (forall qv, sampleQuote d = Some qv -> isNaN qv = true -> st' = st)
  /\ (forall qv s, sampleQuote d = Some qv -> qv = S754_zero s -> st' = st)
  /\ (forall qv ev,
        sampleQuote d = Some qv -> sampleEpoch d = Some ev ->
        truthy qv = true -> truthy ev = true ->
        st' = handleTickData {| quote := qv; epoch := ev |} st
        /\ tickBuffer (eng st')
           = pushTick (tickBuffer (eng st)) {| quote := qv; epoch := ev |})
  /\ (forall qv ev sq,
        sampleQuote d = Some qv -> sampleEpoch d = Some ev ->
        qv = S754_infinity sq -> truthy ev = true ->
        tickBuffer (eng st')
        = pushTick (tickBuffer (eng st)) {| quote := qv; epoch := ev |})
  /\ (st' <> st ->
      exists qv ev,
        sampleQuote d = Some qv /\ sampleEpoch d = Some ev
        /\ isNaN qv = false /\ qv <> S754_zero false /\ qv <> S754_zero true
        /\ tickBuffer (eng st')
           = pushTick (tickBuffer (eng st)) {| quote := qv; epoch := ev |}).
Proof.
  cbv zeta.
  assert (Hdrop : truthyField (sampleQuote d) && truthyField (sampleEpoch d) = false ->
                  onTick d st = st).
  { unfold onTick, sampleQuote, sampleEpoch, truthyField.
    destruct d as [[[[[qv|] [ev|]]|]]|]; cbn; try reflexivity.
    intros ->. reflexivity. }
  assert (Hkeep : forall qv ev,
            sampleQuote d = Some qv -> sampleEpoch d = Some ev ->
            truthy qv = true -> truthy ev = true ->
            onTick d st = handleTickData {| quote := qv; epoch := ev |} st).
  { unfold onTick, sampleQuote, sampleEpoch.
    destruct d as [[[[[qv'|] [ev'|]]|]]|]; cbn; try discriminate.
    intros qv ev [= ->] [= ->] -> ->. reflexivity. }
  assert (Hframe : world (onTick d st) = world st
                   /\ eng (onTick d st)
                      = set_tickBuffer (eng st) (tickBuffer (eng (onTick d st)))).
  { destruct (truthyField (sampleQuote d) && truthyField (sampleEpoch d)) eqn:E.
    - apply andb_prop in E as [Eq Ee].
      destruct (sampleQuote d) as [qv|] eqn:Hq; [|discriminate].
      destruct (sampleEpoch d) as [ev|] eqn:He; [|discriminate].
      rewrite (Hkeep qv ev eq_refl eq_refl Eq Ee).
      destruct st as [e w]. split; reflexivity.
    - rewrite (Hdrop eq_refl). destruct st as [[] w]. split; reflexivity. }
  destruct Hframe as [Hw He].
  split; [exact Hw|]. split; [exact He|]. split; [exact Hdrop|].
  split; [|split; [|split; [|split]]].
  - intros qv Hq Hnan. apply Hdrop. rewrite Hq. destruct qv; try discriminate. reflexivity.
  - intros qv s Hq ->. apply Hdrop. rewrite Hq. reflexivity.
  - intros qv ev Hq Hev Tq Te. rewrite (Hkeep qv ev Hq Hev Tq Te).
    split; reflexivity.
  - intros qv ev sq Hq Hev -> Te. rewrite (Hkeep _ ev Hq Hev eq_refl Te). reflexivity.
  - intros Hchanged.
    destruct (truthyField (sampleQuote d) && truthyField (sampleEpoch d)) eqn:E.
    + apply andb_prop in E as [Eq Ee].
      destruct (sampleQuote d) as [qv|] eqn:Hq; [|discriminate].
      destruct (sampleEpoch d) as [ev|] eqn:Hev; [|discriminate].
      exists qv, ev. cbn in Eq, Ee.
      destruct (truthy_finite qv Eq) as (Hn & Hz1 & Hz2).
      rewrite (Hkeep qv ev eq_refl eq_refl Eq Ee).
      repeat split; assumption.
    + contradiction Hchanged. apply Hdrop. reflexivity.
Qed.

(** ** The bias of a full window, in terms of its high count *)

(** For every buffer holding at least 50 ticks the snapshot's bias is
    decided by the number [h] of high ticks among the last 50: UNDER when
    [h >= 31] (more than 60% high), OVER when [h <= 19] (more than 60% low),
    NEUTRAL in between; the confidence score is the dominant percentage plus
    5 capped at 95, and 50 for a neutral snapshot. *)
Theorem bias_of_full_window (buf : list TickData) :
  (50 <= length buf)%nat ->
  let a := analyzeDistribution buf in
  let h := Z.of_nat (highCount (window buf)) in
  (bias a = UNDER <-> 31 <= h)
  /\ (bias a = OVER <-> h <= 19)
  /\ (bias a = NEUTRAL <-> 20 <= h <= 30)
  /\ (bias a = UNDER -> confidenceScore a = ofZ (Z.min 95 (2 * h + 5)))
  /\ (bias a = OVER -> confidenceScore a = ofZ (Z.min 95 (2 * (50 - h) + 5)))
  /\ (bias a = NEUTRAL -> confidenceScore a = ofZ 50).
Proof.
  intros Hlen. cbv zeta.
  destruct (analysis_of_full_buffer _ Hlen) as (Hh & _ & _ & _ & _ & Hd).
  pose proof (f_equal fst Hd) as Hb. pose proof (f_equal snd Hd) as Hc.
  cbn [fst snd] in Hb, Hc. rewrite Hb, Hc. clear Hb Hc Hd.
  unfold decisionAt50.
  destruct (Z.leb_spec 31 (Z.of_nat (highCount (window buf)))) as [H31|H31];
    [|destruct (Z.leb_spec (Z.of_nat (highCount (window buf))) 19) as [H19|H19]];
    cbn [fst snd]; repeat split; intros; try reflexivity; try discriminate; lia.
Qed.

Lemma bias_of_full_window_witness :
  bias (analyzeDistribution (repeat lowTick 20 ++ repeat highTick 30)) = NEUTRAL
  /\ confidenceScore (analyzeDistribution (repeat lowTick 20 ++ repeat highTick 30))
     = ofZ 50.
Proof.
  destruct (bias_of_full_window (repeat lowTick 20 ++ repeat highTick 30))
    as (_ & _ & Hn & _ & _ & Hc).
  - vm_compute. lia.
  - assert (Hb : bias (analyzeDistribution (repeat lowTick 20 ++ repeat highTick 30))
                 = NEUTRAL) by (apply Hn; vm_compute; split; discriminate).
    split; [exact Hb|exact (Hc Hb)].
Defined.

(** ** Handles, timers and the lifecycle *)

Lemma Live_initState : Live initState.
Proof.
  split; cbn.
  - apply Inv_initState.
  - intros [] h; discriminate.
  - presence.
  - presence.
  - presence.
  - discriminate.
  - intros [? H]; discriminate H.
Qed.

Lemma Live_frame (st st' : State) :
  Inv st' ->
  countdownInterval (eng st') = countdownInterval (eng st) ->
  signalGenerationInterval (eng st') = signalGenerationInterval (eng st) ->
  timers (world st') = timers (world st) ->
  (is_Some (currentSignal (eng st')) <-> is_Some (currentSignal (eng st))) ->
  isInitialized (eng st') = isInitialized (eng st) ->
  unsubscribe (eng st') = unsubscribe (eng st) ->
  subscriptions (world st') = subscriptions (world st) ->
  Live st -> Live st'.
Proof.
  intros Hinv Hc Hs Ht Hcur Hi Hu Hsub [H0 H1 H2 H3 H4 H5 H7].
  split.
  - exact Hinv.
  - intros k h Hk. rewrite Ht. apply H1. destruct k; cbn in *; congruence.
  - rewrite Hcur, Hc. exact H2.
  - rewrite Hi, Hs. exact H3.
  - rewrite Hi, Hu. exact H4.
  - intros sid Hsid. rewrite Hsub. apply H5. congruence.
  - rewrite Hcur, Hi. exact H7.
Qed.

Lemma Live_onTick (d : option Raw.Message) (st : State) :
  Live st -> Live (onTick d st).
Proof.
  intros H. apply (Live_frame st); try apply Inv_onTick; try apply H; try reflexivity.
  all: unfold onTick; destruct d as [[[[[qv|] [ev|]]|]]|]; cbn; try reflexivity;
    destruct (truthy qv && truthy ev); reflexivity.
Qed.

Lemma Live_notifyUI (s : option SignalData) (st : State) :
  Live st -> Live (notifyUI s st).
Proof.
  intros H. apply (Live_frame st); try apply Inv_notifyUI; try apply H; try reflexivity.
  all: unfold notifyUI; destruct (onSignalUpdate (eng st)); reflexivity.
Qed.

Lemma Live_updateOutcome (o : TradeOutcome) (st : State) :
  Live st -> Live (updateOutcome o st).
Proof.
  intros H. apply (Live_frame st); try apply Inv_updateOutcome; try apply H; try reflexivity.
  all: unfold updateOutcome; destruct (decide _); cbn; try reflexivity;
    destruct (onOutcomeChange (eng st)); reflexivity.
Qed.

Lemma Inv_notifyUI_inv (s : option SignalData) (st : State) :
  Inv (notifyUI s st) -> Inv st.
Proof.
  unfold notifyUI. destruct (onSignalUpdate (eng st)); [|tauto].
  intros [H1 H2 H3 H6]. split; assumption.
Qed.

Lemma Live_clearCurrentSignal (st : State) :
  Live st -> Live (clearCurrentSignal st).
Proof.
  intros H. pose proof (Inv_clearCurrentSignal st (live_inv _ H)) as Hinv.
  revert Hinv. unfold clearCurrentSignal.
  destruct (currentSignal (eng st)) as [sig|] eqn:Hcur; [|intros _; exact H].
  intros Hinv. apply Inv_notifyUI_inv in Hinv. apply Live_notifyUI.
  destruct H as [H0 H1 H2 H3 H4 H5 H7]. destruct st as [e w]. cbn in *.
  rewrite Hcur in H2.
  destruct (countdownInterval e) as [hc|] eqn:Ec.
  2:{ destruct H2 as [H2 _]. destruct H2 as [? H2]; [eauto|discriminate]. }
  split; cbn; try assumption.
  - intros k h Hk. destruct k; cbn in Hk; [|discriminate].
    pose proof (H1 SignalGenerationTimer h Hk) as Hl.
    pose proof (H1 CountdownTimer hc Ec) as Hl'.
    rewrite lookup_delete_ne; [exact Hl|]. intros ->. congruence.
  - presence.
  - intros [? Hx]; discriminate Hx.
Qed.

Lemma Live_startCountdown (st : State) :
  Inv st ->
  (forall k h, handleOf (eng st) k = Some h -> timers (world st) !! h = Some k) ->
  (isInitialized (eng st) = true <-> is_Some (signalGenerationInterval (eng st))) ->
  (isInitialized (eng st) = true <-> is_Some (unsubscribe (eng st))) ->
  (forall sid, unsubscribe (eng st) = Some sid -> sid ∈ subscriptions (world st)) ->
  is_Some (currentSignal (eng st)) ->
  isInitialized (eng st) = true ->
  Live (startCountdown st).
Proof.
  intros H0 H1 H3 H4 H5 Hact Hinit. pose proof (Inv_startCountdown st H0) as Hinv.
  revert Hinv. unfold startCountdown.
  destruct st as [e w]. cbn in *.
  pose proof (inv_timers _ H0) as Hown. cbn in Hown.
  destruct (countdownInterval e) as [hc|] eqn:Ec; cbn; intros Hinv.
  all: split; cbn; try assumption; try presence.
  all: intros k h Hk; destruct k; cbn in Hk.
  all: try (injection Hk as <-; apply lookup_insert_eq).
  all: pose proof (H1 SignalGenerationTimer h Hk) as Hl;
       destruct (Hown _ _ Hl) as [Hlt _];
       rewrite lookup_insert_ne by lia.
  - pose proof (H1 CountdownTimer hc Ec) as Hl'.
    rewrite lookup_delete_ne; [exact Hl|]. intros ->. congruence.
  - exact Hl.
Qed.

Lemma Inv_signal_installed (sig : SignalData) (st : State) :
  Inv st ->
  currentSignal (eng st) = None ->
  expiresAt sig = createdAt sig + SIGNAL_DURATION * 1000 ->
  Inv (notifyUI (Some sig)
         (upd (fun e => set_activeSignalIds e (activeSignalIds e ∪ {[ id sig ]}))
            (upd (fun e => set_currentSignal e (Some sig)) st))).
Proof.
  intros [H1 H2 H3 H6] Hidle Hexp. apply Inv_notifyUI.
  destruct st as [e w]. cbn in *. rewrite Hidle in H1.
  split; cbn; auto; try same_timers H3.
  - rewrite H1. apply (left_id_L ∅ (∪)).
  - intros s [= <-]. exact Hexp.
Qed.

Lemma Live_generateSignal (a : DistributionAnalysis) (t0 now : Z) (st : State) :
  currentSignal (eng st) = None ->
  isInitialized (eng st) = true ->
  Live st -> Live (generateSignal a t0 now st).
Proof.
  intros Hidle Hinit H. unfold generateSignal.
  destruct (decide _) as [Hdup|Hfresh]; [exact H|].
  destruct H as [H0 H1 H2 H3 H4 H5 H7].
  pose proof (Inv_signal_installed (newSignal a (signalIdOf t0) now) st H0 Hidle eq_refl)
    as Hinv.
  apply Live_startCountdown; try exact Hinv.
  all: unfold notifyUI; cbn; destruct (onSignalUpdate (eng st)); cbn.
  all: first [ exact H3 | exact H4 | exact H5 | exact Hinit
             | (intros k h Hk; apply H1; destruct k; exact Hk)
             | (eexists; reflexivity) ].
Qed.

Lemma Live_checkAndGenerateSignal (t0 now : Z) (st : State) :
  isInitialized (eng st) = true ->
  Live st -> Live (checkAndGenerateSignal t0 now st).
Proof.
  intros Hinit H. unfold checkAndGenerateSignal.
  destruct (currentSignal (eng st)) eqn:Hcur; [exact H|].
  destruct (decide _); [exact H|].
  destruct (ltb _ _); [exact H|].
  destruct (decide _); [|exact H].
  apply Live_generateSignal; assumption.
Qed.

Lemma Live_countdownTick (now : Z) (st : State) :
  Live st -> Live (countdownTick now st).
Proof.
  intros H. unfold countdownTick.
  destruct (currentSignal (eng st)) as [sig|] eqn:Hcur.
  - assert (Hl : Live (notifyUI (Some (withRemaining sig (remainingAt sig now)))
      (upd (fun e => set_currentSignal e (Some (withRemaining sig (remainingAt sig now)))) st))).
    { apply Live_notifyUI. apply (Live_frame st); try exact H; try reflexivity.
      - pose proof (Inv_countdownTick now st (live_inv _ H)) as Hinv.
        destruct H as [[H1 H2 H3 H6] _ _ _ _ _ _]. destruct st as [e w]. cbn in *.
        rewrite Hcur in H1.
        split; cbn; auto; try same_timers H3.
        intros s [= <-]. cbn. apply H6. exact Hcur.
      - cbn. rewrite Hcur. presence. }
    cbv zeta. destruct (_ <=? 0); [apply Live_clearCurrentSignal|]; exact Hl.
  - destruct (live_countdown _ H) as [_ Hc]. rewrite Hcur in Hc.
    destruct (countdownInterval (eng st)) as [h|]; [|exact H].
    destruct Hc as [? Hc]; [eauto|discriminate].
Qed.

Lemma Live_retryConnection (conn : option string) (st : State) :
  Live st -> Live (retryConnection conn st).
Proof.
  intros H. unfold retryConnection.
  destruct (isInitialized (eng st)) eqn:Hinit; [|exact H].
  pose proof (Inv_connectToDerivAPI conn st (live_inv _ H)) as Hinv.
  destruct H as [H0 H1 H2 H3 H4 H5 H7]. destruct st as [e w].
  destruct conn as [sid|]; cbn in *.
  all: split; cbn; try assumption.
  all: first
    [ solve [intros k h Hk; apply H1; destruct k; exact Hk]
    | solve [intros sid' [= <-]; apply elem_of_union_r, elem_of_singleton; reflexivity]
    | solve [rewrite ?Hinit; presence] ].
Qed.

Lemma Live_setRetry (n : nat) (st : State) :
  Live st -> Live (inWorld (setRetry n) st).
Proof.
  intros H. apply (Live_frame st); try exact H; try reflexivity.
  destruct H as [[H1 H2 H3 H6] _ _ _ _ _ _]. split; assumption.
Qed.

Lemma Live_initialize (cfg : NumericSignalConfig) (conn : option string) (st : State) :
  Live st -> Live (fst (initialize cfg conn st)).
Proof.
  intros H. pose proof (Inv_initialize cfg conn st (live_inv _ H)) as Hinv.
  revert Hinv. unfold initialize.
  destruct (isInitialized (eng st)) eqn:Hinit; [intros _; exact H|].
  destruct H as [H0 H1 H2 H3 H4 H5 H7].
  assert (Hs : signalGenerationInterval (eng st) = None).
  { destruct (signalGenerationInterval (eng st)); [|reflexivity].
    destruct H3 as [_ H3]. rewrite Hinit in H3. discriminate H3. eauto. }
  assert (Hu : unsubscribe (eng st) = None).
  { destruct (unsubscribe (eng st)); [|reflexivity].
    destruct H4 as [_ H4]. rewrite Hinit in H4. discriminate H4. eauto. }
  pose proof (inv_timers _ H0) as Hown.
  destruct st as [e w]. cbn in *.
  destruct conn as [sid|]; cbn; unfold startSignalGeneration; cbn; rewrite ?Hs; cbn;
    intros Hinv.
  all: split; cbn; try assumption; rewrite ?Hinit, ?Hs, ?Hu.
  all: first
    [ solve [presence]
    | solve [discriminate]
    | solve [intros sid' [= <-]; apply elem_of_union_r, elem_of_singleton; reflexivity]
    | solve [intros k h Hk; apply H1; destruct k; exact Hk]
    | idtac ].
  intros k h Hk. destruct k; cbn in Hk.
  - injection Hk as <-. apply lookup_insert_eq.
  - pose proof (H1 CountdownTimer h Hk) as Hl.
    destruct (Hown _ _ Hl) as [Hlt _].
    rewrite lookup_insert_ne by lia. exact Hl.
Qed.

Lemma Live_reload (cfg : NumericSignalConfig) (st : State) :
  Live st -> Live (reload cfg st).
Proof.
  intros H. apply Live_clearCurrentSignal.
  apply (Live_frame st); try exact H; try reflexivity.
  destruct H as [[H1 H2 H3 H6] _ _ _ _ _ _].
  split; cbn; auto; try same_timers H3.
Qed.

Lemma Live_destroy (st : State) : Live st -> Live (destroy st).
Proof.
  intros H.
  destruct (destroy_post st (live_inv _ H))
    as (Ht & Hs & Hb & Hc & Hi & Hu & Hci & Hsi & Hin & _).
  split.
  - apply Inv_destroy, H.
  - intros k h Hk. destruct k; unfold handleOf in Hk; congruence.
  - rewrite Hc, Hci. presence.
  - rewrite Hin, Hsi. presence.
  - rewrite Hin, Hu. presence.
  - rewrite Hu. discriminate.
  - rewrite Hc. intros [? Hx]; discriminate Hx.
Qed.

Lemma Live_fire (h : nat) (t0 now : Z) (st : State) : Live st -> Live (fire h t0 now st).
Proof.
  intros H. unfold fire.
  destruct (timers (world st) !! h) as [[]|] eqn:Hl;
    auto using Live_countdownTick.
  apply Live_checkAndGenerateSignal; [|exact H].
  apply (live_poll _ H).
  destruct (inv_timers _ (live_inv _ H) _ _ Hl) as [_ Ho]. cbn in Ho. eauto.
Qed.

Lemma Live_step (st : State) (ev : Event) : Live st -> Live (step st ev).
Proof.
  intros H.
  destruct ev; cbn;
    auto using Live_initialize, Live_reload, Live_updateOutcome, Live_destroy,
      Live_onTick, Live_fire.
  destruct (pendingRetries (world st)) as [|n]; [exact H|].
  apply Live_retryConnection, Live_setRetry, H.
Qed.

Lemma Live_run (evs : list Event) (st : State) : Live st -> Live (run evs st).
Proof.
  revert st. induction evs as [|ev evs IH]; intros st H; cbn; [exact H|].
  apply IH, Live_step, H.
Qed.

Lemma Live_reachable (evs : list Event) : Live (run evs initState).
Proof. apply Live_run, Live_initState. Qed.

Lemma keeps_refl (st : State) : keeps st st.
Proof. repeat split. Qed.

Lemma keeps_inWorld (f : World -> World) (s st : State) :
  (forall w, outcomeChanges (f w) = outcomeChanges w) ->
  keeps s st -> keeps s (inWorld f st).
Proof.
  intros Hf (H1 & H2 & H3 & H4 & H5). repeat split; try assumption.
  cbn. rewrite Hf. exact H3.
Qed.

Lemma keeps_upd (f : Engine -> Engine) (s st : State) :
  (forall e, tickBuffer (f e) = tickBuffer e /\ currentOutcome (f e) = currentOutcome e
             /\ onOutcomeChange (f e) = onOutcomeChange e
             /\ onSignalUpdate (f e) = onSignalUpdate e) ->
  keeps s st -> keeps s (upd f st).
Proof.
  intros Hf (H1 & H2 & H3 & H4 & H5).
  destruct (Hf (eng st)) as (F1 & F2 & F3 & F4).
  repeat split; cbn; congruence.
Qed.

Lemma keeps_notifyUI (o : option SignalData) (s st : State) :
  keeps s st -> keeps s (notifyUI o st).
Proof.
  intros H. unfold notifyUI. destruct (onSignalUpdate (eng st)); [|exact H].
  apply keeps_inWorld; [reflexivity|exact H].
Qed.

Lemma keeps_startCountdown (s st : State) :
  keeps s st -> keeps s (startCountdown st).
Proof.
  intros (H1 & H2 & H3 & H4 & H5). unfold startCountdown.
  destruct (countdownInterval (eng st)); repeat split; assumption.
Qed.

Lemma keeps_startSignalGeneration (s st : State) :
  keeps s st -> keeps s (startSignalGeneration st).
Proof.
  intros (H1 & H2 & H3 & H4 & H5). unfold startSignalGeneration.
  destruct (signalGenerationInterval (eng st)); repeat split; assumption.
Qed.

Ltac keeps_step :=
  first
    [ assumption
    | apply keeps_refl
    | apply keeps_notifyUI
    | apply keeps_startCountdown
    | apply keeps_startSignalGeneration
    | (apply keeps_upd; [intros; repeat split|])
    | (apply keeps_inWorld; [intros; reflexivity|])
    | match goal with
      | |- keeps _ (match ?x with _ => _ end) => destruct x eqn:?
      end ].

Lemma keeps_clearCurrentSignal (s st : State) :
  keeps s st -> keeps s (clearCurrentSignal st).
Proof. intros H. unfold clearCurrentSignal. repeat keeps_step. Qed.

Lemma keeps_generateSignal (a : DistributionAnalysis) (t0 now : Z) (s st : State) :
  keeps s st -> keeps s (generateSignal a t0 now st).
Proof. intros H. unfold generateSignal. repeat keeps_step. Qed.

Lemma keeps_checkAndGenerateSignal (t0 now : Z) (s st : State) :
  keeps s st -> keeps s (checkAndGenerateSignal t0 now st).
Proof.
  intros H. unfold checkAndGenerateSignal.
  repeat first [apply keeps_generateSignal | keeps_step].
Qed.

Lemma keeps_countdownTick (now : Z) (s st : State) :
  keeps s st -> keeps s (countdownTick now st).
Proof.
  intros H. unfold countdownTick.
  repeat first [apply keeps_clearCurrentSignal | keeps_step].
Qed.

Lemma keeps_fire (h : nat) (t0 now : Z) (st : State) : keeps st (fire h t0 now st).
Proof.
  unfold fire.
  repeat first [apply keeps_checkAndGenerateSignal | apply keeps_countdownTick | keeps_step].
Qed.

Lemma keeps_reload (cfg : NumericSignalConfig) (st : State) : keeps st (reload cfg st).
Proof. unfold reload. repeat first [apply keeps_clearCurrentSignal | keeps_step]. Qed.

Lemma keeps_retry (conn : option string) (n : nat) (st : State) :
  keeps st (retryConnection conn (inWorld (setRetry n) st)).
Proof.
  unfold retryConnection, connectToDerivAPI.
  destruct conn; cbn [fst]; repeat keeps_step.
Qed.

(** ** The Buffer and the accepted ticks *)

Lemma tickBuffer_initialize (cfg : NumericSignalConfig) (conn : option string)
    (st : State) :
  tickBuffer (eng (fst (initialize cfg conn st))) = tickBuffer (eng st).
Proof.
  unfold initialize, connectToDerivAPI, startSignalGeneration.
  destruct (isInitialized (eng st)); [reflexivity|].
  destruct conn; cbn; [|reflexivity].
  destruct (signalGenerationInterval (eng st)); reflexivity.
Qed.

Lemma tickBuffer_updateOutcome (o : TradeOutcome) (st : State) :
  tickBuffer (eng (updateOutcome o st)) = tickBuffer (eng st).
Proof.
  unfold updateOutcome. destruct (decide _); [|reflexivity].
  cbn. destruct (onOutcomeChange (eng st)); reflexivity.
Qed.

Lemma tickBuffer_destroy (st : State) : tickBuffer (eng (destroy st)) = [].
Proof. reflexivity. Qed.

Lemma onTick_accepted (d : option Raw.Message) (st : State) :
  onTick d st = match acceptedTick d with
                | Some t => handleTickData t st
                | None => st
                end.
Proof.
  unfold onTick, acceptedTick, sampleQuote, sampleEpoch.
  destruct d as [[[[[qv|] [ev|]]|]]|]; cbn; try reflexivity.
  destruct (truthy qv && truthy ev); reflexivity.
Qed.

Lemma tickBuffer_step (st : State) (ev : Event) (acc : list TickData) :
  tickBuffer (eng st) = slice_last TICK_BUFFER_SIZE acc ->
  tickBuffer (eng (step st ev)) = slice_last TICK_BUFFER_SIZE (acceptedSince acc ev).
Proof.
  intros H. destruct ev; cbn [step acceptedSince].
  - rewrite tickBuffer_initialize. exact H.
  - destruct (keeps_reload cfg st) as (Hb & _). rewrite Hb. exact H.
  - rewrite tickBuffer_updateOutcome. exact H.
  - reflexivity.
  - rewrite onTick_accepted. destruct (acceptedTick tickData) as [t|]; [|exact H].
    cbn. rewrite H. apply pushTick_slice_last.
  - destruct (keeps_fire h t0 now st) as (Hb & _). rewrite Hb. exact H.
  - destruct (pendingRetries (world st)) as [|n]; [exact H|].
    destruct (keeps_retry conn n st) as (Hb & _). rewrite Hb. exact H.
Qed.

Lemma tickBuffer_run (evs : list Event) (st : State) (acc : list TickData) :
  tickBuffer (eng st) = slice_last TICK_BUFFER_SIZE acc ->
  tickBuffer (eng (run evs st))
  = slice_last TICK_BUFFER_SIZE (fold_left acceptedSince evs acc).
Proof.
  revert st acc. induction evs as [|ev evs IH]; intros st acc H; cbn; [exact H|].
  apply IH, tickBuffer_step, H.
Qed.

Lemma accepted_truthy (evs : list Event) (acc : list TickData) :
  Forall truthyTick acc -> Forall truthyTick (fold_left acceptedSince evs acc).
Proof.
  revert acc. induction evs as [|ev evs IH]; intros acc H; cbn; [exact H|].
  apply IH. destruct ev; cbn; try exact H; [constructor|].
  unfold acceptedTick.
  destruct (sampleQuote tickData) as [qv|]; [|exact H].
  destruct (sampleEpoch tickData) as [ev|]; [|exact H].
  destruct (truthy qv && truthy ev) eqn:E; [|exact H].
  apply andb_prop in E. apply Forall_app. split; [exact H|].
  constructor; [exact E|constructor].
Qed.

(** Whatever the run, the Buffer is exactly the last 100 (at most) of the
    ticks the subscription callback accepted since the engine was last
    destroyed, in arrival order; no other method adds, drops or reorders
    ticks.  So every buffered tick has a quote and an epoch that are
    neither zero nor NaN. *)
Theorem buffer_is_last_accepted_ticks (evs : list Event) :
  tickBuffer (eng (run evs initState))
  = drop (length (accepted evs) - 100) (accepted evs)
  /\ (forall t, t ∈ tickBuffer (eng (run evs initState)) ->
        truthy (quote t) = true /\ truthy (epoch t) = true
        /\ isNaN (quote t) = false).
Proof.
  pose proof (tickBuffer_run evs initState [] eq_refl) as Hbuf.
  split; [exact Hbuf|].
  intros t Hin. rewrite Hbuf in Hin.
  pose proof (accepted_truthy evs [] (Forall_nil_2 _)) as Hall.
  apply (Forall_drop _ (length (accepted evs) - 100)) in Hall.
  rewrite Forall_forall in Hall. destruct (Hall t Hin) as [Hq He].
  destruct (truthy_finite _ Hq) as (Hn & _).
  repeat split; assumption.
Qed.

(** ** Outcome notifications *)

Lemma noRepeat_snoc (l : list TradeOutcome) (o : TradeOutcome) :
  noRepeat l -> (forall x, last l = Some x -> x <> o) -> noRepeat (l ++ [o]).
Proof.
  induction l as [|a [|b l] IH]; intros Hl Hlast.
  - exact I.
  - cbn. split; [|exact I]. apply Hlast. reflexivity.
  - destruct Hl as [Hab Hl]. split; [exact Hab|].
    apply IH; [exact Hl|]. intros x Hx. apply Hlast. exact Hx.
Qed.

Lemma OutcomeOK_keeps (st st' : State) :
  keeps st st' -> OutcomeOK st -> OutcomeOK st'.
Proof.
  intros (_ & Hc & Ho & Hcb & _) [H1 H2 H3].
  split; rewrite ?Ho, ?Hc, ?Hcb; assumption.
Qed.

Lemma OutcomeOK_updateOutcome (o : TradeOutcome) (st : State) :
  OutcomeOK st -> OutcomeOK (updateOutcome o st).
Proof.
  intros [H1 H2 H3]. unfold updateOutcome.
  destruct (decide _) as [Hne|_]; [|split; assumption].
  cbn. destruct (onOutcomeChange (eng st)) eqn:Hcb.
  - split; cbn.
    + rewrite Hcb. discriminate.
    + intros o'. rewrite last_snoc. congruence.
    + apply noRepeat_snoc; [exact H3|].
      intros x Hx. rewrite <- (H2 x Hx). exact Hne.
  - split; cbn.
    + intros _. apply H1. reflexivity.
    + rewrite (H1 eq_refl). discriminate.
    + exact H3.
Qed.

Lemma OutcomeOK_initialize (cfg : NumericSignalConfig) (conn : option string)
    (st : State) :
  OutcomeOK st -> OutcomeOK (fst (initialize cfg conn st)).
Proof.
  intros [H1 H2 H3]. unfold initialize, connectToDerivAPI, startSignalGeneration.
  destruct (isInitialized (eng st)); [split; assumption|].
  destruct conn; cbn; [destruct (signalGenerationInterval (eng st)); cbn|].
  all: split; cbn; try assumption; discriminate.
Qed.

Lemma OutcomeOK_step (st : State) (ev : Event) : OutcomeOK st -> OutcomeOK (step st ev).
Proof.
  intros H. destruct ev; cbn [step].
  - apply OutcomeOK_initialize, H.
  - apply (OutcomeOK_keeps st); [apply keeps_reload|exact H].
  - apply OutcomeOK_updateOutcome, H.
  - destruct H as [H1 H2 H3]. unfold destroy.
    destruct (unsubscribe (eng st)); cbn; destruct (countdownInterval (eng st)); cbn;
      destruct (signalGenerationInterval (eng st)); cbn; split; assumption.
  - rewrite onTick_accepted. destruct (acceptedTick tickData); [|exact H].
    destruct H as [H1 H2 H3]. split; assumption.
  - apply (OutcomeOK_keeps st); [apply keeps_fire|exact H].
  - destruct (pendingRetries (world st)) as [|n]; [exact H|].
    apply (OutcomeOK_keeps st); [apply keeps_retry|exact H].
Qed.

Lemma OutcomeOK_run (evs : list Event) (st : State) : OutcomeOK st -> OutcomeOK (run evs st).
Proof.
  revert st. induction evs as [|ev evs IH]; intros st H; cbn; [exact H|].
  apply IH, OutcomeOK_step, H.
Qed.

(** Whatever the run, onOutcomeChange is called on real changes only: it
    has received nothing while no callback is registered, it never receives
    the same outcome twice in a row, and the last outcome it received is
    the engine's current outcome; calling updateOutcome again with the
    current outcome changes nothing. *)
Theorem outcome_notified_on_change_only (evs : list Event) (o : TradeOutcome) :
  let st := run evs initState in
  (onOutcomeChange (eng st) = false -> outcomeChanges (world st) = [])
  /\ noRepeat (outcomeChanges (world st))
  /\ (forall last_o, last (outcomeChanges (world st)) = Some last_o ->
        currentOutcome (eng st) = last_o)
  /\ updateOutcome o (updateOutcome o st) = updateOutcome o st
  /\ currentOutcome (eng (updateOutcome o st)) = o
  /\ (currentOutcome (eng st) <> o -> onOutcomeChange (eng st) = true ->
        outcomeChanges (world (updateOutcome o st)) = outcomeChanges (world st) ++ [o]).
Proof.
  cbv zeta.
  assert (H0 : OutcomeOK initState) by (split; cbn; [reflexivity|discriminate|exact I]).
  destruct (OutcomeOK_run evs initState H0) as [H1 H2 H3].
  repeat split; try assumption.
  - unfold updateOutcome at 1.
    destruct (decide _) as [Hne|_]; [|reflexivity].
    exfalso. apply Hne. unfold updateOutcome.
    destruct (decide _) as [_|Heq]; cbn.
    + destruct (onOutcomeChange (eng (run evs initState))); reflexivity.
    + destruct (decide (currentOutcome (eng (run evs initState)) = o)); [assumption|contradiction].
  - unfold updateOutcome. destruct (decide _) as [_|Heq]; cbn.
    + destruct (onOutcomeChange (eng (run evs initState))); reflexivity.
    + destruct (decide (currentOutcome (eng (run evs initState)) = o)); [assumption|contradiction].
  - intros Hne Hcb. unfold updateOutcome.
    destruct (decide _) as [_|Heq]; [|contradiction].
    cbn. rewrite Hcb. reflexivity.
Qed.

(** ** Published signals *)

Lemma round_table (k : nat) :
  (k <= 50)%nat ->
  fst (decisionAt50 (Z.of_nat k)) <> NEUTRAL ->
  Math_round (snd (decisionAt50 (Z.of_nat k))) = snd (decisionAt50 (Z.of_nat k))
  /\ geb (snd (decisionAt50 (Z.of_nat k))) (ofZ 67) = true
  /\ geb (ofZ 95) (snd (decisionAt50 (Z.of_nat k))) = true.
Proof.
  intros Hk.
  do 51 (destruct k as [|k];
         [vm_compute; intros Hn; repeat split; try reflexivity; congruence|]).
  lia.
Qed.

Lemma good_newSignal (buf : list TickData) (t0 now : Z) :
  (MIN_TICKS_FOR_ANALYSIS <= length buf)%nat ->
  bias (analyzeDistribution buf) <> NEUTRAL ->
  GoodSignal (newSignal (analyzeDistribution buf) (signalIdOf t0) now).
Proof.
  intros Hlen Hbias.
  destruct (analysis_of_full_buffer _ Hlen) as (Hh & _ & _ & _ & _ & Hd).
  assert (Hk : (highCount (window buf) <= 50)%nat) by lia.
  pose proof (round_table _ Hk) as Hr.
  rewrite <- Hd in Hr. cbn [fst snd] in Hr.
  destruct (Hr Hbias) as (Hround & H67 & H95).
  split; unfold newSignal;
    cbn [type market confidence createdAt expiresAt remainingSeconds
         distributionAnalysis id].
  - destruct (bias (analyzeDistribution buf)); auto. contradiction.
  - reflexivity.
  - reflexivity.
  - rewrite Hround. exact H67.
  - rewrite Hround. exact H95.
  - exact Hround.
  - reflexivity.
  - eexists. reflexivity.
  - rewrite analyzeDistribution_window. cbn [recentTicks].
    rewrite length_map. apply length_window. exact Hlen.
  - unfold SIGNAL_DURATION. lia.
Qed.

Lemma good_withRemaining (s : SignalData) (r : Z) :
  GoodSignal s -> 0 <= r -> GoodSignal (withRemaining s r).
Proof. intros [] Hr. split; cbn; assumption. Qed.

Lemma Published_same (st st' : State) :
  currentSignal (eng st') = currentSignal (eng st) ->
  signalUpdates (world st') = signalUpdates (world st) ->
  Published st -> Published st'.
Proof. intros Hc Hu [H1 H2]. split; rewrite ?Hc, ?Hu; assumption. Qed.

Lemma Published_notifyUI (o : option SignalData) (st : State) :
  (forall s, o = Some s -> GoodSignal s) ->
  Published st -> Published (notifyUI o st).
Proof.
  intros Ho [H1 H2]. unfold notifyUI.
  destruct (onSignalUpdate (eng st)); split; cbn; try assumption.
  apply Forall_app. split; [exact H2|]. constructor; [exact Ho|constructor].
Qed.

Lemma Published_cleared (st : State) (sig : SignalData) :
  currentSignal (eng st) = Some sig ->
  Forall (fun o => forall s, o = Some s -> GoodSignal s) (signalUpdates (world st)) ->
  Published (clearCurrentSignal st).
Proof.
  intros Hcur H2. unfold clearCurrentSignal. rewrite Hcur.
  apply Published_notifyUI; [discriminate|].
  destruct (countdownInterval _); split; cbn; try assumption; discriminate.
Qed.

Lemma Published_clearCurrentSignal (st : State) :
  Published st -> Published (clearCurrentSignal st).
Proof.
  intros H. destruct (currentSignal (eng st)) as [sig|] eqn:Hcur.
  - apply (Published_cleared st sig Hcur), H.
  - unfold clearCurrentSignal. rewrite Hcur. exact H.
Qed.

Lemma Published_startCountdown (st : State) :
  Published st -> Published (startCountdown st).
Proof.
  apply Published_same; unfold startCountdown;
    destruct (countdownInterval (eng st)); reflexivity.
Qed.

Lemma Published_checkAndGenerateSignal (t0 now : Z) (st : State) :
  Published st -> Published (checkAndGenerateSignal t0 now st).
Proof.
  intros H. unfold checkAndGenerateSignal.
  destruct (currentSignal (eng st)) eqn:Hcur; [exact H|].
  destruct (decide _) as [|Hlen]; [exact H|].
  destruct (ltb _ _); [exact H|].
  destruct (decide _) as [Hbias|]; [|exact H].
  assert (Hgood : GoodSignal (newSignal (analyzeDistribution (tickBuffer (eng st)))
                                (signalIdOf t0) now))
    by (apply good_newSignal; [lia|exact Hbias]).
  unfold generateSignal. destruct (decide _); [exact H|].
  apply Published_startCountdown, Published_notifyUI.
  { intros s [= <-]. exact Hgood. }
  destruct H as [H1 H2]. split; cbn; [|exact H2].
  intros s [= <-]. split; [exact Hgood|]. cbn. unfold SIGNAL_DURATION. lia.
Qed.

Lemma Published_countdownTick (now : Z) (st : State) :
  Published st -> Published (countdownTick now st).
Proof.
  intros H. unfold countdownTick.
  destruct (currentSignal (eng st)) as [sig|] eqn:Hcur.
  - destruct (pub_current _ H sig Hcur) as [Hgood _].
    assert (Hr : 0 <= remainingAt sig now) by (unfold remainingAt; lia).
    pose proof (good_withRemaining sig _ Hgood Hr) as Hgood'.
    cbv zeta. destruct (Z.leb_spec (remainingAt sig now) 0) as [Hz|Hpos].
    + eapply Published_cleared.
      * unfold notifyUI. destruct (onSignalUpdate _); reflexivity.
      * destruct H as [_ H2]. unfold notifyUI.
        destruct (onSignalUpdate _); cbn; [|exact H2].
        apply Forall_app. split; [exact H2|].
        constructor; [|constructor]. intros s [= <-]. exact Hgood'.
    + apply Published_notifyUI.
      { intros s [= <-]. exact Hgood'. }
      destruct H as [H1 H2]. split; cbn; [|exact H2].
      intros s [= <-]. split; [exact Hgood'|exact Hpos].
  - apply (Published_same st); [| |exact H];
      destruct (countdownInterval (eng st)); reflexivity.
Qed.

Lemma Published_step (st : State) (ev : Event) : Published st -> Published (step st ev).
Proof.
  intros H. destruct ev; cbn [step].
  - apply (Published_same st); [| |exact H];
      unfold initialize, connectToDerivAPI, startSignalGeneration;
      (destruct (isInitialized (eng st)); [reflexivity|]);
      (destruct conn; cbn; [|reflexivity]);
      destruct (signalGenerationInterval (eng st)); reflexivity.
  - apply Published_clearCurrentSignal.
    apply (Published_same st); [reflexivity|reflexivity|exact H].
  - apply (Published_same st); [| |exact H];
      unfold updateOutcome; (destruct (decide _); [|reflexivity]);
      cbn; destruct (onOutcomeChange (eng st)); reflexivity.
  - destruct H as [H1 H2]. split.
    + discriminate.
    + unfold destroy. destruct (unsubscribe (eng st)); cbn;
        destruct (countdownInterval (eng st)); cbn;
        destruct (signalGenerationInterval (eng st)); cbn; exact H2.
  - rewrite onTick_accepted. destruct (acceptedTick tickData); [|exact H].
    apply (Published_same st); [reflexivity|reflexivity|exact H].
  - unfold fire. destruct (timers (world st) !! h) as [[]|];
      auto using Published_checkAndGenerateSignal, Published_countdownTick.
  - destruct (pendingRetries (world st)) as [|n]; [exact H|].
    apply (Published_same st); [| |exact H];
      unfold retryConnection, connectToDerivAPI; cbn;
      (destruct (isInitialized (eng st)); [|reflexivity]);
      destruct conn; reflexivity.
Qed.

Lemma Published_run (evs : list Event) (st : State) : Published st -> Published (run evs st).
Proof.
  revert st. induction evs as [|ev evs IH]; intros st H; cbn; [exact H|].
  apply IH, Published_step, H.
Qed.

Lemma Published_initState : Published initState.
Proof. split; cbn; [discriminate|constructor]. Qed.

(** Whatever the run, every Signal the UI callback has received (and the
    active Signal, if any) is OVER or UNDER, never NEUTRAL, equal to the
    bias of the snapshot it carries, on market R_50, with a confidence
    between 67 and 95 that is the snapshot's score, a window of 50 digits,
    an id of the form signal-<t>, an expiry 120000 ms after its creation
    and a non-negative remaining time; the Signal held in the slot always
    has a positive remaining time. *)
Theorem published_signals_are_well_formed (evs : list Event) (s : SignalData) :
  let st := run evs initState in
  (Some s ∈ signalUpdates (world st) \/ currentSignal (eng st) = Some s) ->
  (type s = OVER \/ type s = UNDER)
  /\ type s = bias (distributionAnalysis s)
  /\ market s = "R_50"
  /\ geb (confidence s) (ofZ 67) = true
  /\ geb (ofZ 95) (confidence s) = true
  /\ confidence s = confidenceScore (distributionAnalysis s)
  /\ length (recentTicks (distributionAnalysis s)) = 50%nat
  /\ (exists t, id s = signalIdOf t)
  /\ expiresAt s = createdAt s + 120000
  /\ 0 <= remainingSeconds s
  /\ (currentSignal (eng st) = Some s -> 0 < remainingSeconds s).
Proof.
  cbv zeta. intros Hs.
  destruct (Published_run evs initState Published_initState) as [H1 H2].
  assert (Hgood : GoodSignal s).
  { destruct Hs as [Hin|Hcur].
    - rewrite Forall_forall in H2. exact (H2 _ Hin s eq_refl).
    - apply (H1 s Hcur). }
  destruct Hgood.
  repeat split; try assumption.
  intros Hcur. apply (H1 s Hcur).
Qed.

Lemma published_signals_are_well_formed_witness :
  type demoSignal = bias (distributionAnalysis demoSignal)
  /\ expiresAt demoSignal = createdAt demoSignal + 120000
  /\ 0 < remainingSeconds demoSignal.
Proof.
  destruct (published_signals_are_well_formed activeEvents demoSignal)
    as (_ & Hty & _ & _ & _ & _ & _ & _ & Hexp & _ & Hpos).
  - right. vm_compute. reflexivity.
  - split; [exact Hty|]. split; [exact Hexp|]. apply Hpos. vm_compute. reflexivity.
Defined.

(** ** Timers and subscription over the lifecycle *)

(** Whatever the run, the countdown timer is live exactly while a Signal is
    active and the detection-poll timer exactly while the engine is
    initialised; a timer is live exactly when the engine holds its handle,
    so there is at most one live timer of each kind and no timer is ever
    orphaned or left dangling. *)
Theorem timers_follow_lifecycle (evs : list Event) :
  let st := run evs initState in
  (is_Some (currentSignal (eng st))
   <-> exists h, timers (world st) !! h = Some CountdownTimer)
  /\ (isInitialized (eng st) = true
      <-> exists h, timers (world st) !! h = Some SignalGenerationTimer)
  /\ (forall k h, handleOf (eng st) k = Some h <-> timers (world st) !! h = Some k)
  /\ (forall k h1 h2,
        timers (world st) !! h1 = Some k -> timers (world st) !! h2 = Some k -> h1 = h2).
Proof.
  cbv zeta. destruct (Live_reachable evs) as [H0 H1 H2 H3 H4 H5 H7].
  pose proof (inv_timers _ H0) as Hown.
  assert (Hiff : forall k h, handleOf (eng (run evs initState)) k = Some h
                             <-> timers (world (run evs initState)) !! h = Some k).
  { intros k h. split; [apply H1|]. intros Hl. apply (Hown _ _ Hl). }
  split; [|split; [|split]].
  - rewrite H2. split.
    + intros [h Hh]. exists h. apply (H1 CountdownTimer). exact Hh.
    + intros [h Hl]. exists h. apply (Hiff CountdownTimer). exact Hl.
  - rewrite H3. split.
    + intros [h Hh]. exists h. apply (H1 SignalGenerationTimer). exact Hh.
    + intros [h Hl]. exists h. apply (Hiff SignalGenerationTimer). exact Hl.
  - exact Hiff.
  - intros k h1 h2 Hl1 Hl2.
    apply Hiff in Hl1. apply Hiff in Hl2. congruence.
Qed.

(** Whatever the run, a Signal is active only while the engine is
    initialised, and an uninitialised engine (never started, failed to
    start, or destroyed) is quiescent: no Signal is active, the id set is
    empty, no interval timer is live or held, and no timer firing changes
    anything. *)
Theorem uninitialised_engine_is_quiescent (evs : list Event) :
  let st := run evs initState in
  (is_Some (currentSignal (eng st)) -> isInitialized (eng st) = true)
  /\ (isInitialized (eng st) = false ->
        currentSignal (eng st) = None
        /\ activeSignalIds (eng st) = ∅
        /\ timers (world st) = ∅
        /\ countdownInterval (eng st) = None
        /\ signalGenerationInterval (eng st) = None
        /\ forall h t0 now, fire h t0 now st = st).
Proof.
  cbv zeta. pose proof (Live_reachable evs) as HL.
  destruct HL as [H0 H1 H2 H3 H4 H5 H7].
  pose proof (inv_timers _ H0) as Hown.
  split; [exact H7|].
  intros Hinit.
  assert (Hcur : currentSignal (eng (run evs initState)) = None).
  { destruct (currentSignal _) eqn:E; [|reflexivity].
    rewrite H7 in Hinit by eauto. discriminate. }
  assert (Hc : countdownInterval (eng (run evs initState)) = None).
  { destruct (countdownInterval _) eqn:E; [|reflexivity].
    destruct H2 as [_ H2]. rewrite Hcur in H2.
    destruct H2 as [? H2]; [eauto|discriminate]. }
  assert (Hs : signalGenerationInterval (eng (run evs initState)) = None).
  { destruct (signalGenerationInterval _) eqn:E; [|reflexivity].
    destruct H3 as [_ H3]. rewrite H3 in Hinit by eauto. discriminate. }
  assert (Hids : activeSignalIds (eng (run evs initState)) = ∅).
  { rewrite (inv_ids _ H0), Hcur. reflexivity. }
  assert (Ht : timers (world (run evs initState)) = ∅).
  { apply map_eq. intros h. rewrite lookup_empty.
    destruct (timers _ !! h) as [k|] eqn:El; [|reflexivity].
    destruct (Hown _ _ El) as [_ Ho]. destruct k; cbn in Ho; congruence. }
  repeat split; try assumption.
  intros h t0 now. unfold fire. rewrite Ht, lookup_empty. reflexivity.
Qed.

(** ** Expiry and reload free the slot *)

(** In every reachable state with an active Signal, a countdown tick fired
    when less than a second is left, and likewise a reload at any time,
    returns the engine to Idle with an empty id set and no countdown timer
    and leaves the Buffer untouched, whatever the Buffer holds; and if the
    Buffer holds at least 50 ticks with a non-neutral snapshot, the very
    next detection poll emits a new Signal from it, whatever its clock
    readings (the id of the cleared Signal is forgotten, so even the same
    reading is accepted again). *)
Theorem expiry_frees_the_slot (evs : list Event) (sig : SignalData)
    (cfg : NumericSignalConfig) (now t0 t1 : Z) :
  let st := run evs initState in
  let a := analyzeDistribution (tickBuffer (eng st)) in
  currentSignal (eng st) = Some sig ->
  (forall st1,
     (expiresAt sig - now < 1000 /\ st1 = countdownTick now st)
     \/ st1 = reload cfg st ->
     currentSignal (eng st1) = None
     /\ activeSignalIds (eng st1) = ∅
     /\ tickBuffer (eng st1) = tickBuffer (eng st)
     /\ (forall h, timers (world st1) !! h <> Some CountdownTimer)
     /\ ((50 <= length (tickBuffer (eng st)))%nat ->
         bias a <> NEUTRAL ->
         currentSignal (eng (checkAndGenerateSignal t0 t1 st1))
         = Some (newSignal a (signalIdOf t0) t1))).
Proof.
  cbv zeta. intros Hcur st1 Hst1.
  set (st := run evs initState) in *.
  pose proof (Live_reachable evs) as HL. fold st in HL.
  assert (HL1 : Live st1).
  { destruct Hst1 as [[_ ->] | ->]; [apply Live_countdownTick|apply Live_reload]; exact HL. }
  assert (Hk : keeps st st1).
  { destruct Hst1 as [[_ ->] | ->];
      [apply keeps_countdownTick, keeps_refl|apply keeps_reload]. }
  assert (Hnone : currentSignal (eng st1) = None).
  { destruct Hst1 as [[Hexp ->] | ->].
    - unfold countdownTick. rewrite Hcur. cbv zeta.
      assert (Hz : remainingAt sig now = 0) by (apply remainingAt_zero_iff; lia).
      rewrite Hz. cbn [Z.leb Z.compare].
      match goal with |- currentSignal (eng (clearCurrentSignal ?s)) = None =>
        apply (clearCurrentSignal_post s (withRemaining sig 0))
      end.
      unfold notifyUI. destruct (onSignalUpdate _); reflexivity.
    - unfold reload.
      apply (clearCurrentSignal_post (upd (fun e => set_config e (Some cfg)) st) sig).
      exact Hcur. }
  destruct Hk as (Hbuf & _).
  pose proof (inv_ids _ (live_inv _ HL1)) as Hids. rewrite Hnone in Hids.
  split; [exact Hnone|]. split; [exact Hids|]. split; [exact Hbuf|]. split.
  - intros h Hl.
    destruct (inv_timers _ (live_inv _ HL1) _ _ Hl) as [_ Ho]. cbn in Ho.
    destruct (live_countdown _ HL1) as [_ Hc]. rewrite Hnone in Hc.
    destruct Hc as [? Hc]; [eauto|discriminate].
  - intros Hlen Hbias. rewrite <- Hbuf in Hlen, Hbias |- *.
    destruct (checkAndGenerateSignal_fires t0 t1 st1 Hnone Hlen Hbias) as (_ & _ & Hfire).
    rewrite Hfire.
    apply (generateSignal_idle _ t0 t1 st1 (live_inv _ HL1) Hnone).
Qed.

Lemma expiry_frees_the_slot_witness :
  currentSignal (eng (countdownTick 120500 activeDemo)) = None
  /\ currentSignal (eng (checkAndGenerateSignal 125000 125001
                           (countdownTick 120500 activeDemo)))
     = Some (newSignal (analyzeDistribution (tickBuffer (eng activeDemo)))
               (signalIdOf 125000) 125001).
Proof.
  destruct (expiry_frees_the_slot activeEvents demoSignal demoConfig 120500 125000 125001)
    with (st1 := countdownTick 120500 activeDemo)
    as (Hnone & _ & _ & _ & Hnext).
  - vm_compute. reflexivity.
  - left. split; [vm_compute|]; reflexivity.
  - split; [exact Hnone|]. apply Hnext.
    + vm_compute. lia.
    + vm_compute. discriminate.
Defined.

(** ** Signal ids *)


(** ** SignalOverlay.tsx: the list of available signals *)

Lemma ids_filter (f : SignalData -> bool) (l : list SignalData) :
  NoDup (map id l) -> NoDup (map id (List.filter f l)).
Proof.
  induction l as [|s l IH]; cbn; [auto|].
  rewrite !NoDup_cons. intros [Hs Hl].
  destruct (f s); cbn; [rewrite NoDup_cons; split|]; auto.
  intros Hin. apply Hs.
  apply list_elem_of_fmap in Hin as (x & Hx & Hin).
  apply list_elem_of_fmap. exists x. split; [exact Hx|].
  apply list_elem_of_In in Hin. apply filter_In in Hin as [Hin _].
  apply list_elem_of_In. exact Hin.
Qed.

Lemma ids_replace (signal : SignalData) (l : list SignalData) :
  map id (map (fun s => if String.eqb (id s) (id signal) then signal else s) l)
  = map id l.
Proof.
  induction l as [|s l IH]; cbn; [reflexivity|].
  rewrite IH. f_equal.
  destruct (String.eqb_spec (id s) (id signal)); congruence.
Qed.

Lemma find_none_id (signal : SignalData) (l : list SignalData) :
  List.find (fun s => String.eqb (id s) (id signal)) l = None ->
  id signal ∉ map id l.
Proof.
  intros Hf Hin. apply list_elem_of_fmap in Hin as (x & Hx & Hin).
  apply list_elem_of_In in Hin.
  pose proof (find_none _ _ Hf x Hin) as Hne. cbn in Hne.
  rewrite Hx, String.eqb_refl in Hne. discriminate.
Qed.

Lemma uiStep_invariant (l : list SignalData) (ev : UiEvent) :
  (length l <= 5)%nat /\ NoDup (map id l) ->
  (length (uiStep l ev) <= 5)%nat /\ NoDup (map id (uiStep l ev)).
Proof.
  intros [Hlen Hnd]. destruct ev as [[signal|] now|now]; cbn [uiStep].
  - unfold handleSignalUpdate. cbv zeta.
    pose proof (ids_filter (fun s => now <? expiresAt s) l Hnd) as Hact.
    pose proof (filter_length_le (fun s => now <? expiresAt s) l) as Hle.
    destruct (List.find _ _) eqn:Hf.
    + rewrite length_map, ids_replace. split; [lia|exact Hact].
    + split; [rewrite length_take; lia|].
      apply find_none_id in Hf.
      assert (Hall : NoDup (map id (signal :: List.filter (fun s => now <? expiresAt s) l)))
        by (cbn; apply NoDup_cons; split; assumption).
      rewrite <- (take_drop 5 (signal :: _)), fmap_app in Hall.
      apply NoDup_app in Hall. apply Hall.
  - split; assumption.
  - unfold refreshSignals.
    pose proof (filter_length_le (fun s => 0 <? remainingSeconds s)
                  (map (fun s => withRemaining s (Z.max 0 ((expiresAt s - now) / 1000))) l))
      as Hle.
    rewrite length_map in Hle. split; [lia|].
    apply ids_filter. rewrite <- list_fmap_compose.
    erewrite list_fmap_ext; [exact Hnd|]. intros i s _. reflexivity.
Qed.

(** Whatever notifications and interval ticks the component sees, starting
    from the empty list, it shows at most 5 signals and never two with the
    same id. *)
Theorem available_signals_bounded_distinct (evs : list UiEvent) :
  (length (uiRun evs) <= 5)%nat /\ NoDup (map id (uiRun evs)).
Proof.
  unfold uiRun.
  assert (H0 : (length (@nil SignalData) <= 5)%nat /\ NoDup (map id (@nil SignalData)))
    by (split; [cbn; lia|constructor]).
  revert H0. generalize (@nil SignalData).
  induction evs as [|ev evs IH]; intros l Hl; cbn; [exact Hl|].
  apply IH, uiStep_invariant, Hl.
Qed.

(** A delivered Signal is always shown afterwards, even an expired one; it
    replaces the listed signal with its id or else comes first; every
    other signal shown was listed before and has not expired at that
    reading; a null notification changes nothing. *)
Theorem delivered_signal_is_listed (signal : SignalData) (now : Z)
    (prev : list SignalData) :
  let l := handleSignalUpdate (Some signal) now prev in
  In signal l
  /\ (forall s, In s l -> s = signal \/ (In s prev /\ now < expiresAt s /\ id s <> id signal))
  /\ (~ In (id signal) (map id (List.filter (fun s => now <? expiresAt s) prev)) ->
      head l = Some signal)
  /\ handleSignalUpdate None now prev = prev.
Proof.
  cbv zeta. unfold handleSignalUpdate. cbv zeta.
  set (active := List.filter (fun s => now <? expiresAt s) prev).
  assert (Hact : forall s, In s active -> In s prev /\ now < expiresAt s).
  { intros s Hin. apply filter_In in Hin as [Hin Hlt]. split; [exact Hin|lia]. }
  destruct (List.find _ active) as [x|] eqn:Hf.
  - apply find_some in Hf as [Hx Heq].
    repeat split.
    + apply in_map_iff. exists x. rewrite Heq. split; [reflexivity|exact Hx].
    + intros s Hin. apply in_map_iff in Hin as (y & Hy & Hin).
      destruct (String.eqb_spec (id y) (id signal)) as [_|Hne]; [left; congruence|].
      right. subst s. destruct (Hact y Hin). repeat split; assumption.
    + intros Hnot. exfalso. apply Hnot. apply in_map_iff. exists x.
      split; [|exact Hx]. apply String.eqb_eq. exact Heq.
  - repeat split.
    + left. reflexivity.
    + intros s Hin.
      assert (Hin' : In s (signal :: active)).
      { apply list_elem_of_In. apply list_elem_of_In in Hin.
        exact (subseteq_take 5 _ _ Hin). }
      destruct Hin' as [->|Hin']; [left; reflexivity|right].
      destruct (Hact s Hin'). repeat split; try assumption.
      pose proof (find_none _ _ Hf s Hin') as Hne. cbn in Hne.
      apply String.eqb_neq. exact Hne.
Qed.

(** The component's interval keeps a signal exactly while a full second is
    left, showing it with the remaining whole seconds, which are at least
    1; it drops a signal at the very clock readings at which the engine's
    countdown tick clears it. *)
Theorem refresh_agrees_with_engine (st : State) (sig : SignalData)
    (now : Z) (prev : list SignalData) :
  currentSignal (eng st) = Some sig ->
  (forall s', In s' (refreshSignals now prev) <->
     exists s, In s prev /\ 1000 <= expiresAt s - now
               /\ s' = withRemaining s ((expiresAt s - now) / 1000))
  /\ (forall s', In s' (refreshSignals now prev) -> 1 <= remainingSeconds s')
  /\ (refreshSignals now [sig] = [] <-> currentSignal (eng (countdownTick now st)) = None)
  /\ (refreshSignals now [sig] = [] <-> expiresAt sig - now < 1000).
Proof.
  cbv zeta. intros Hcur.
  assert (Hmem : forall s', In s' (refreshSignals now prev) <->
     exists s, In s prev /\ 1000 <= expiresAt s - now
               /\ s' = withRemaining s ((expiresAt s - now) / 1000)).
  { intros s'. unfold refreshSignals. rewrite filter_In, in_map_iff. split.
    - intros [(s & <- & Hin) Hpos]. cbn in Hpos.
      assert (1 <= (expiresAt s - now) / 1000) by lia.
      assert (1000 <= expiresAt s - now).
      { destruct (Z_lt_le_dec (expiresAt s - now) 1000) as [Hlt|]; [|assumption].
        pose proof (Z.div_lt_upper_bound (expiresAt s - now) 1000 1). lia. }
      exists s. repeat split; try assumption. f_equal. lia.
    - intros (s & Hin & Hge & ->).
      pose proof (Z.div_le_lower_bound (expiresAt s - now) 1000 1).
      split.
      + exists s. split; [|exact Hin]. f_equal. lia.
      + cbn. lia. }
  assert (Hone : refreshSignals now [sig] = [] <-> expiresAt sig - now < 1000).
  { unfold refreshSignals. cbn.
    pose proof (Z.div_le_lower_bound (expiresAt sig - now) 1000 1).
    pose proof (Z.div_lt_upper_bound (expiresAt sig - now) 1000 1).
    destruct (Z.ltb_spec 0 (Z.max 0 ((expiresAt sig - now) / 1000))); split;
      intros; try discriminate; try reflexivity; lia. }
  split; [exact Hmem|]. split; [|split; [|exact Hone]].
  - intros s' Hin. apply Hmem in Hin as (s & _ & Hge & ->). cbn.
    pose proof (Z.div_le_lower_bound (expiresAt s - now) 1000 1). lia.
  - rewrite Hone. pose proof (remainingAt_zero_iff sig now) as Hz0.
    assert (H0 : 0 <= remainingAt sig now) by (unfold remainingAt; lia).
    unfold countdownTick. rewrite Hcur. cbv zeta.
    destruct (Z.leb_spec (remainingAt sig now) 0) as [Hz|Hpos].
    + split; [intros _|intros _; lia].
      match goal with |- currentSignal (eng (clearCurrentSignal ?s)) = None =>
        apply (clearCurrentSignal_post s (withRemaining sig (remainingAt sig now)))
      end.
      unfold notifyUI. destruct (onSignalUpdate _); reflexivity.
    + split; [lia|]. unfold notifyUI.
      destruct (onSignalUpdate _); cbn; discriminate.
Qed.

Lemma refresh_agrees_with_engine_witness :
  (refreshSignals 120500 [demoSignal] = []
   <-> currentSignal (eng (countdownTick 120500 activeDemo)) = None)
  /\ (forall s', In s' (refreshSignals 76000 [demoSignal]) -> 1 <= remainingSeconds s').
Proof.
  split.
  - apply (refresh_agrees_with_engine activeDemo demoSignal 120500 [demoSignal]).
    vm_compute. reflexivity.
  - apply (refresh_agrees_with_engine activeDemo demoSignal 76000 [demoSignal]).
    vm_compute. reflexivity.
Defined.

(** ** SignalOverlay.tsx: formatRemainingTime *)

Lemma pad_two_digits (k : nat) :
  (k < 60)%nat ->
  padStart 2 "0"%char (pretty (Z.of_nat k)) = twoDigits (Z.of_nat k).
Proof.
  intros Hk.
  do 60 (destruct k as [|k]; [vm_compute; reflexivity|]).
  lia.
Qed.

Lemma twoDigits_inj (a b : Z) :
  0 <= a < 60 -> 0 <= b < 60 -> twoDigits a = twoDigits b -> a = b.
Proof.
  intros Ha Hb. unfold twoDigits. intros [= H1 H2].
  pose proof (Z.div_pos a 10). pose proof (Z.div_pos b 10).
  pose proof (Z.div_lt_upper_bound a 10 10). pose proof (Z.div_lt_upper_bound b 10 10).
  pose proof (Z.mod_pos_bound a 10). pose proof (Z.mod_pos_bound b 10).
  apply pretty_N_char_inj in H1; [|lia|lia].
  apply pretty_N_char_inj in H2; [|lia|lia].
  rewrite (Z.div_mod a 10), (Z.div_mod b 10) by lia.
  apply Z2N.inj in H1; [|lia|lia]. apply Z2N.inj in H2; [|lia|lia].
  congruence.
Qed.

Lemma length_append (s t : string) :
  String.length (s +:+ t) = (String.length s + String.length t)%nat.
Proof.
  induction s as [|c s IH]; [reflexivity|].
  change (S (String.length (s +:+ t)) = S (String.length s + String.length t)).
  rewrite IH. reflexivity.
Qed.

Lemma append_suffix_inj (s1 s2 t1 t2 : string) :
  String.length t1 = String.length t2 ->
  s1 +:+ t1 = s2 +:+ t2 -> s1 = s2 /\ t1 = t2.
Proof.
  revert s2. induction s1 as [|c s1 IH]; intros [|d s2] Hlen H.
  - split; [reflexivity|exact H].
  - exfalso. apply (f_equal String.length) in H.
    rewrite !length_append in H. cbn in H. lia.
  - exfalso. apply (f_equal String.length) in H.
    rewrite !length_append in H. cbn in H. lia.
  - injection H as -> H. destruct (IH s2 Hlen H) as [-> ->]. split; reflexivity.
Qed.

(** For a non-negative whole number of seconds below 2^53 the label is the
    minutes in decimal, a colon, and the seconds of the minute as exactly
    two digits; different numbers of seconds give different labels. *)
Theorem formatRemainingTime_two_digit_seconds (s s' : Z) :
  0 <= s < 2 ^ 53 -> 0 <= s' < 2 ^ 53 ->
  formatRemainingTime s = pretty (s / 60) +:+ ":" +:+ twoDigits (s mod 60)
  /\ String.length (formatRemainingTime s) = (String.length (pretty (s / 60)%Z) + 3)%nat
  /\ (formatRemainingTime s = formatRemainingTime s' -> s = s').
Proof.
  intros [Hs _] [Hs' _].
  assert (Hfmt : forall x, 0 <= x ->
            formatRemainingTime x = pretty (x / 60) +:+ ":" +:+ twoDigits (x mod 60)).
  { intros x Hx. unfold formatRemainingTime. cbv zeta.
    rewrite Z.rem_mod_nonneg by lia.
    pose proof (Z.mod_pos_bound x 60).
    rewrite <- (Z2Nat.id (x mod 60)) by lia.
    rewrite pad_two_digits by lia. reflexivity. }
  split; [apply Hfmt, Hs|]. split.
  - rewrite (Hfmt s Hs), length_append. reflexivity.
  - rewrite (Hfmt s Hs), (Hfmt s' Hs'). intros H.
    apply append_suffix_inj in H as [Hm Hd]; [|reflexivity].
    apply (inj pretty) in Hm. injection Hd as Hd1 Hd2.
    pose proof (Z.mod_pos_bound s 60). pose proof (Z.mod_pos_bound s' 60).
    assert (Hmod : s mod 60 = s' mod 60).
    { apply twoDigits_inj; [lia|lia|]. unfold twoDigits. congruence. }
    rewrite (Z.div_mod s 60), (Z.div_mod s' 60) by lia. congruence.
Qed.

Lemma formatRemainingTime_two_digit_seconds_witness :
  formatRemainingTime 65 = pretty (65 / 60) +:+ ":" +:+ twoDigits (65 mod 60)
  /\ String.length (formatRemainingTime 65) = (String.length (pretty (65 / 60)%Z) + 3)%nat
  /\ (formatRemainingTime 65 = formatRemainingTime 125 -> 65 = 125).
Proof.
  apply (formatRemainingTime_two_digit_seconds 65 125); lia.
Defined.

(** ** waitForAPI *)

Lemma waitForAPI_settles_aux (startTime timeout : Z) (checks : list (Z * ApiBase))
    (prev gap : Z) :
  spaced prev gap checks ->
  timeout - (prev + gap - startTime) <= 500 * (Z.of_nat (length checks) - 1) ->
  (0 < length checks)%nat ->
  waitForAPI startTime timeout checks <> Pending.
Proof.
  revert prev gap. induction checks as [|[now b] rest IH]; intros prev gap Hsp Hn Hpos.
  - cbn in Hpos. lia.
  - cbn [waitForAPI]. cbv zeta. destruct Hsp as [Hge Hsp].
    destruct (apiReady b); [discriminate|].
    destruct (Z.leb_spec timeout (now - startTime)) as [|Hlt]; [discriminate|].
    apply (IH now 500 Hsp).
    + cbn [length] in Hn. lia.
    + destruct rest; [cbn [length] in Hn; lia|cbn; lia].
Qed.

(** waitForAPI settles: when the first check runs at or after the start and
    the checks are at least 500 ms apart, it has resolved or rejected by the
    time it has made [timeout / 500 + 2] checks (62 with the default 30
    seconds); it never polls for ever. *)
Theorem waitForAPI_settles (startTime timeout : Z) (checks : list (Z * ApiBase)) :
  0 <= timeout ->
  spaced startTime 0 checks ->
  timeout / 500 + 2 <= Z.of_nat (length checks) ->
  waitForAPI startTime timeout checks <> Pending.
Proof.
  intros Ht Hsp Hn.
  pose proof (Z.div_pos timeout 500).
  apply (waitForAPI_settles_aux startTime timeout checks startTime 0 Hsp); [|lia].
  pose proof (Z.mul_succ_div_gt timeout 500). lia.
Qed.

Lemma waitForAPI_settles_witness :
  waitForAPI 0 1000 [(0, noApi); (500, noApi); (1000, noApi); (1500, noApi)] <> Pending.
Proof.
  apply waitForAPI_settles.
  - lia.
  - cbn. lia.
  - vm_compute. discriminate.
Defined.

(** waitForAPI resolves exactly at the first check that finds the API
    ready, provided no earlier check had run out of time, and rejects
    exactly at the first check that has run out of time without finding the
    API ready; at a check where both hold the readiness wins.  An API whose
    connection is open is always ready; an API with a send function is
    ready even when its connection is missing or not open, which is the
    state the connection test that follows refuses. *)
Theorem waitForAPI_outcome (startTime timeout : Z) (checks : list (Z * ApiBase)) :
  (waitForAPI startTime timeout checks = Resolved <->
     exists pre now b post,
       checks = pre ++ (now, b) :: post
       /\ Forall (inconclusive startTime timeout) pre
       /\ apiReady b = true)
  /\ (waitForAPI startTime timeout checks = Rejected <->
     exists pre now b post,
       checks = pre ++ (now, b) :: post
       /\ Forall (inconclusive startTime timeout) pre
       /\ apiReady b = false /\ timeout <= now - startTime)
  /\ (forall b, apiConnected b = true -> apiReady b = true)
  /\ (forall b a, api b = Some a -> sendIsFunction a = true ->
        apiReady b = true
        /\ (apiConnected b = false <->
            forall c, connection a = Some c -> readyState c <> 1)).
Proof.
  split; [|split; [|split]].
  - induction checks as [|[now b] rest IH]; cbn [waitForAPI]; cbv zeta.
    + split; [discriminate|]. intros (pre & n & c & post & H & _).
      destruct pre; discriminate H.
    + destruct (apiReady b) eqn:Hr.
      * split; [intros _|reflexivity].
        exists [], now, b, rest. repeat split; [constructor|exact Hr].
      * destruct (Z.leb_spec timeout (now - startTime)) as [Hto|Hlt].
        -- split; [discriminate|]. intros (pre & n & c & post & H & Hpre & Hc).
           destruct pre as [|p pre]; cbn in H; simplify_eq; [congruence|].
           apply Forall_cons in Hpre as [[_ Hp] _]. cbn in Hp. lia.
        -- rewrite IH. split.
           ++ intros (pre & n & c & post & -> & Hpre & Hc).
              exists ((now, b) :: pre), n, c, post.
              repeat split; [|exact Hc]. constructor; [split; assumption|exact Hpre].
           ++ intros (pre & n & c & post & H & Hpre & Hc).
              destruct pre as [|p pre]; cbn in H; simplify_eq; [congruence|].
              apply Forall_cons in Hpre as [_ Hpre].
              exists pre, n, c, post. repeat split; assumption.
  - induction checks as [|[now b] rest IH]; cbn [waitForAPI]; cbv zeta.
    + split; [discriminate|]. intros (pre & n & c & post & H & _).
      destruct pre; discriminate H.
    + destruct (apiReady b) eqn:Hr.
      * split; [discriminate|]. intros (pre & n & c & post & H & Hpre & Hc & _).
        destruct pre as [|p pre]; cbn in H; simplify_eq; [congruence|].
        apply Forall_cons in Hpre as [[Hp _] _]. cbn in Hp. congruence.
      * destruct (Z.leb_spec timeout (now - startTime)) as [Hto|Hlt].
        -- split; [intros _|reflexivity].
           exists [], now, b, rest. repeat split; [constructor|exact Hr|exact Hto].
        -- rewrite IH. split.
           ++ intros (pre & n & c & post & -> & Hpre & Hc).
              exists ((now, b) :: pre), n, c, post.
              repeat split; try apply Hc. constructor; [split; assumption|exact Hpre].
           ++ intros (pre & n & c & post & H & Hpre & Hc & Hto).
              destruct pre as [|p pre]; cbn in H; simplify_eq; [lia|].
              apply Forall_cons in Hpre as [_ Hpre].
              exists pre, n, c, post. repeat split; assumption.
  - intros b. unfold apiConnected, apiReady.
    destruct (api b) as [a|]; [|discriminate]. cbv zeta.
    intros ->. reflexivity.
  - intros b a Ha Hs. unfold apiConnected, apiReady. rewrite Ha. cbv zeta.
    rewrite Hs. split; [apply orb_true_r|].
    destruct (connection a) as [c|].
    + destruct (Z.eqb_spec (readyState c) 1) as [He|Hne]; split;
        try discriminate; try reflexivity.
      * intros H. exfalso. apply (H c eq_refl He).
      * intros _ c' [= <-]. exact Hne.
    + split; [intros _ c'; discriminate|reflexivity].
Qed.

(** ** Start, failed start and the reconnection retry *)

(** A failed start is never retried.  When the first connection attempt of
    initialize fails on an engine that is not initialised, initialize
    rejects having kept the configuration and armed one retry, but it
    leaves the engine uninitialised, with no timer, and with its
    subscription-release field and the open subscriptions as they were; and
    if that retry fires before the engine is started again, it finds the
    engine uninitialised and does nothing, whatever the API would answer by
    then. *)
Theorem failed_start_is_never_retried (evs : list Event)
    (cfg : NumericSignalConfig) (conn : option string) :
  let st := run evs initState in
  isInitialized (eng st) = false ->
  let st1 := fst (initialize cfg None st) in
  let st2 := step st1 (ERetry conn) in
  snd (initialize cfg None st) = false
  /\ config (eng st1) = Some cfg
  /\ isInitialized (eng st1) = false
  /\ unsubscribe (eng st1) = unsubscribe (eng st)
  /\ timers (world st1) = ∅
  /\ subscriptions (world st1) = subscriptions (world st)
  /\ pendingRetries (world st1) = S (pendingRetries (world st))
  /\ eng st2 = eng st1
  /\ timers (world st2) = ∅
  /\ subscriptions (world st2) = subscriptions (world st)
  /\ pendingRetries (world st2) = pendingRetries (world st).
Proof.
  cbv zeta. intros Hi.
  pose proof (Live_reachable evs) as HL.
  set (st := run evs initState) in *.
  assert (Ht : timers (world st) = ∅).
  { apply map_eq. intros h. rewrite lookup_empty.
    destruct (timers (world st) !! h) as [k|] eqn:E; [|reflexivity].
    destruct (inv_timers _ (live_inv _ HL) _ _ E) as [_ Ho].
    destruct k; cbn in Ho.
    - destruct (live_poll _ HL) as [_ H]. rewrite H in Hi; [discriminate|eauto].
    - destruct (live_countdown _ HL) as [_ H].
      pose proof (live_active _ HL (H (ex_intro _ _ Ho))). congruence. }
  unfold initialize. rewrite Hi. cbn. unfold retryConnection. cbn. rewrite Hi.
  repeat split; try assumption; reflexivity.
Qed.

Lemma failed_start_is_never_retried_witness :
  let st1 := fst (initialize demoConfig None initState) in
  isInitialized (eng st1) = false
  /\ eng (step st1 (ERetry (Some "sub-1"))) = eng st1
  /\ subscriptions (world (step st1 (ERetry (Some "sub-1")))) = subscriptions (world initState).
Proof.
  cbv zeta.
  destruct (failed_start_is_never_retried [] demoConfig (Some "sub-1"))
    as (_ & _ & Hi & _ & _ & _ & _ & He & _ & Hs & _).
  - reflexivity.
  - split; [exact Hi|]. split; [exact He|exact Hs].
Defined.



(** Tearing down twice is the same as tearing down once. *)
Theorem destroy_idempotent (st : State) : destroy (destroy st) = destroy st.
Proof.
  destruct st as [e w]. destruct e as [c u o cur buf un cd sg ini ids oc].
  unfold destroy.
  destruct un; destruct cd; destruct sg; reflexivity.
Qed.

(** ** The percentages of a full window *)

Lemma percentage_table (k : nat) :
  (k <= 50)%nat ->
  let h := Z.of_nat k in
  (~ inexactCount h -> percentage h 50 = ofZ (2 * h))
  /\ (inexactCount h -> percentage h 50 <> ofZ (2 * h))
  /\ (h = 29 -> ltb (percentage h 50) (ofZ 58) = true)
  /\ (h = 7 \/ h = 14 \/ h = 28 -> gtb (percentage h 50) (ofZ (2 * h)) = true)
  /\ add (percentage h 50) (percentage (50 - h) 50) = ofZ 100.
Proof.
  intros Hk. unfold inexactCount.
  do 51 (destruct k as [|k];
         [cbv zeta; split; [|split; [|split; [|split]]];
          [intros H; first [lia | vm_compute; reflexivity]
          |intros H; first [lia | vm_compute; discriminate]
          |intros H; first [lia | vm_compute; reflexivity]
          |intros H; first [lia | vm_compute; reflexivity]
          |vm_compute; reflexivity]|]).
  lia.
Qed.

(** For every buffer holding at least 50 ticks, with [h] high ticks among
    the last 50: the two percentages of the snapshot always add up to
    exactly 100, and each is the whole number twice its count except when
    the count is 7, 14, 28 or 29, where the floating-point product is not
    that whole number (it is above it for 7, 14 and 28, and below 58 for
    29). *)
Theorem percentages_of_full_window (buf : list TickData) :
  (50 <= length buf)%nat ->
  let a := analyzeDistribution buf in
  let h := Z.of_nat (highCount (window buf)) in
  (overPercentage a = ofZ (2 * h) <-> ~ inexactCount h)
  /\ (underPercentage a = ofZ (2 * (50 - h)) <-> ~ inexactCount (50 - h))
  /\ add (overPercentage a) (underPercentage a) = ofZ 100
  /\ (h = 29 -> ltb (overPercentage a) (ofZ 58) = true)
  /\ (h = 7 \/ h = 14 \/ h = 28 -> gtb (overPercentage a) (ofZ (2 * h)) = true).
Proof.
  intros Hlen. cbv zeta.
  destruct (analysis_of_full_buffer _ Hlen) as (Hh & _ & _ & Ho & Hu & _).
  rewrite Ho, Hu. clear Ho Hu.
  set (k := highCount (window buf)) in *.
  assert (Hk : (k <= 50)%nat) by lia.
  assert (Hk' : (50 - k <= 50)%nat) by lia.
  destruct (percentage_table k Hk) as (Hex & Hin & H29 & Hup & Hsum).
  destruct (percentage_table (50 - k) Hk') as (Hex' & Hin' & _).
  replace (Z.of_nat (50 - k)) with (50 - Z.of_nat k) in Hex', Hin' by lia.
  split; [split; [intros He Hbad; exact (Hin Hbad He)|exact Hex]|].
  split; [split; [intros He Hbad; exact (Hin' Hbad He)|exact Hex']|].
  split; [exact Hsum|]. split; [exact H29|exact Hup].
Qed.

Lemma percentages_of_full_window_witness :
  let a := analyzeDistribution (repeat lowTick 21 ++ repeat highTick 29) in
  add (overPercentage a) (underPercentage a) = ofZ 100
  /\ ltb (overPercentage a) (ofZ 58) = true
  /\ underPercentage a = ofZ 42.
Proof.
  cbv zeta.
  destruct (percentages_of_full_window (repeat lowTick 21 ++ repeat highTick 29))
    as (_ & Hu & Hsum & H29 & _).
  - vm_compute. lia.
  - split; [exact Hsum|]. split; [apply H29; vm_compute; reflexivity|].
    etransitivity; [apply Hu|vm_compute; reflexivity].
    unfold inexactCount. vm_compute. intros [H|[H|[H|H]]]; discriminate H.
Defined.
